(** * Single-sided USDC withdrawal from the Curve USDC/crvUSD pool

    A shallow embedding of [src/config.py] and [src/curve_withdraw.py].

    Python integers are unbounded, so they are [Z]; the floor division [//]
    by a positive constant is [Z.div].  The script talks to a forked node
    through web3; the node and the two contracts are external, so they enter
    the model as an interface ([Fork]) over an abstract chain state.  The
    script itself is a sequence of calls that may end the process at many
    places ([sys.exit], [parser.error], an exception that is not caught): it
    is written in a small monad of state, transcript and exit, where the
    transcript records every call made to the node and every report
    printed. *)

From Stdlib Require Import ZArith List Bool Lia DecimalString.
From stdpp Require Import base option strings gmap pretty.
Import ListNotations.

Local Open Scope string_scope.
Local Open Scope list_scope.
Local Open Scope Z_scope.

(** ** [src/config.py] *)

Module config.

Definition DEFAULT_RPC_URL : string := "http://127.0.0.1:8545".
Definition ENV_RPC_URL : string := "RPC_URL".
Definition ENV_IMPERSONATED_ADDRESS : string := "IMPERSONATED_ADDRESS".
Definition ENV_BURN_BPS : string := "BURN_BPS".

Definition POOL_ADDRESS : string := "0x4DEcE678ceceb27446b35C672dC7d61F30bAD69E".
Definition USDC_ADDRESS : string := "0xA0b86991c6218b36c1d19D4a2e9Eb0cE3606eB48".

(* Use a 1% slippage buffer against the estimated output. *)
Definition SLIPPAGE_BPS : Z := 99.
Definition MAX_COINS_CHECK : nat := 4.
Definition MIN_BURN_BPS : Z := 1.
Definition MAX_BURN_BPS : Z := 10000.

End config.

(** ** How a call ends *)

(** The exceptions the script names, and one constructor for every other
    exception a web3 call may raise. *)
Inductive exn : Type :=
| ValueError (msg : string)
| BadFunctionCallOutput
| ContractLogicError
| OtherException (msg : string).

(** A call either returns, or ends the process: [sys.exit(msg)] prints
    [msg] and exits with status 1, [parser.error(msg)] prints the usage and
    exits with status 2, and an exception nobody catches reaches the
    handler at the bottom of the script, which exits with status 1. *)
Inductive outcome (A : Type) : Type :=
| Ret (a : A)
| SysExit (msg : string)
| ParserError (msg : string)
| Raise (e : exn).

Arguments Ret {A} a.
Arguments SysExit {A} msg.
Arguments ParserError {A} msg.
Arguments Raise {A} e.

Definition exit_status {A} (o : outcome A) : Z :=
  match o with
  | Ret _ => 0
  | SysExit _ => 1
  | ParserError _ => 2
  | Raise _ => 1
  end.

Definition returns {A} (o : outcome A) : bool :=
  match o with Ret _ => true | _ => false end.

(** ** Withdrawal sizing *)

(** [calc_burn_amount], lines 141-147. *)
Definition calc_burn_amount (lp_balance burn_bps : Z) : outcome Z :=
  let burn_amount := (lp_balance * burn_bps) `div` config.MAX_BURN_BPS in
  if burn_amount =? 0 then
    SysExit "Computed burn amount is zero; LP position may be too small for the requested --burn-bps."
  else Ret burn_amount.

(** The slippage floor, line 268 of [main]:
    [min_received = expected_usdc * config.SLIPPAGE_BPS // 100]. *)
Definition min_received_of (expected_usdc : Z) : Z :=
  (expected_usdc * config.SLIPPAGE_BPS) `div` 100.

(** ** The forked node

    Everything the script asks of web3.  [Chain] is the state of the
    simulated chain; view calls read it, and the three state-changing
    requests (impersonation, the funding transfer and the withdrawal)
    return the next state.  A [reply] is what a remote call gives back:
    a value, or the exception web3 raises. *)

Inductive reply (A : Type) : Type :=
| Ok (a : A)
| Err (e : exn).

Arguments Ok {A} a.
Arguments Err {A} e.

Record Fork (Chain : Type) : Type := {
  (* Web3(HTTPProvider(rpc_url)).is_connected() *)
  is_connected : string -> bool;
  (* to_checksum_address: [None] is its ValueError *)
  to_checksum_address : string -> option string;
  (* w3.eth.accounts *)
  accounts : list string;
  (* make_request("anvil_impersonateAccount", [a]): next state and resp.get("error") *)
  anvil_impersonateAccount : Chain -> string -> Chain * option string;
  (* w3.eth.send_transaction({"from", "to", "value"}) *)
  send_transaction : Chain -> string -> string -> Z -> reply Chain;
  (* contract(address).functions.<view>(...).call(); uint outputs are naturals *)
  coins : Chain -> string -> Z -> reply string;
  balanceOf : Chain -> string -> string -> reply N;
  decimals : Chain -> string -> reply N;
  symbol : Chain -> string -> reply string;
  calc_withdraw_one_coin : Chain -> string -> Z -> Z -> reply N;
  (* remove_liquidity_one_coin(burn, i, min, receiver).transact({"from": sender})
     followed by wait_for_transaction_receipt: next state, hash, receipt status *)
  remove_liquidity_one_coin :
    Chain -> string -> Z -> Z -> Z -> string -> string -> reply (Chain * string * Z)
}.

Arguments is_connected {Chain} _ _.
Arguments to_checksum_address {Chain} _ _.
Arguments accounts {Chain} _.
Arguments anvil_impersonateAccount {Chain} _ _ _.
Arguments send_transaction {Chain} _ _ _ _ _.
Arguments coins {Chain} _ _ _ _.
Arguments balanceOf {Chain} _ _ _ _.
Arguments decimals {Chain} _ _ _.
Arguments symbol {Chain} _ _ _.
Arguments calc_withdraw_one_coin {Chain} _ _ _ _ _.
Arguments remove_liquidity_one_coin {Chain} _ _ _ _ _ _ _ _.

(** [Balances], lines 29-35. *)
Record Balances : Type := {
  lp_balance : Z;
  usdc_balance : Z;
  lp_decimals : Z;
  usdc_decimals : Z;
  usdc_symbol : string
}.

(** What [console.print] is asked to show.  The formatted text goes through
    floating point ([format_units]) and is for display only, so a report
    carries the arguments the lines are built from. *)
Inductive report : Type :=
| ImpersonationSuccessful (fund_wei : Z) (funding_account impersonated : string)
| DryRun (rpc_url pool_address impersonated : string) (balances : Balances)
    (burn_amount usdc_index expected_usdc min_received : Z)
| Result (rpc_url pool_address impersonated : string) (before after : Balances)
    (burn_amount lp_burned usdc_received expected_usdc min_received : Z)
    (tx_hash : string).

(** One entry of the transcript: a request to the node with its answer, or
    a printed report. *)
Inductive event : Type :=
| IsConnected (rpc_url : string) (r : bool)
| Accounts (r : list string)
| ImpersonateAccount (a : string) (error : option string)
| SendTransaction (from to : string) (value : Z) (r : option exn)
| Coins (pool : string) (i : Z) (r : reply string)
| BalanceOf (token holder : string) (r : reply N)
| Decimals (token : string) (r : reply N)
| Symbol (token : string) (r : reply string)
| CalcWithdrawOneCoin (pool : string) (burn_amount i : Z) (r : reply N)
| RemoveLiquidityOneCoin (pool : string) (burn_amount i min_received : Z)
    (receiver sender : string) (r : reply (string * Z))
| Print (r : report).

(** ** The monad of the script

    A computation starts from a chain state and gives the chain state it
    leaves, the transcript of what it did, and how it ended. *)

Definition M (Chain A : Type) : Type := Chain -> Chain * list event * outcome A.

Definition ret {Chain A} (a : A) : M Chain A := fun c => (c, [], Ret a).

Definition bind {Chain A B} (m : M Chain A) (k : A -> M Chain B) : M Chain B :=
  fun c =>
    match m c with
    | (c1, l1, Ret a) =>
        match k a c1 with
        | (c2, l2, o) => (c2, l1 ++ l2, o)
        end
    | (c1, l1, SysExit msg) => (c1, l1, SysExit msg)
    | (c1, l1, ParserError msg) => (c1, l1, ParserError msg)
    | (c1, l1, Raise e) => (c1, l1, Raise e)
    end.

Notation "'let*' x ':=' m 'in' k" := (bind m (fun x => k))
  (at level 10, x pattern, m at level 100, k at level 200).

(** A pure step that may end the process. *)
Definition lift {Chain A} (o : outcome A) : M Chain A := fun c => (c, [], o).

Definition sys_exit {Chain A} (msg : string) : M Chain A := lift (SysExit msg).

Definition raise {Chain A} (e : exn) : M Chain A := lift (Raise e).

Definition emit {Chain} (e : event) : M Chain unit := fun c => (c, [e], Ret tt).

(** A view call: read the chain, record the exchange, hand the reply over
    (the caller decides what an exception does). *)
Definition view {Chain A} (f : Chain -> reply A) (ev : reply A -> event)
  : M Chain (reply A) :=
  fun c => (c, [ev (f c)], Ret (f c)).

(** A reply whose exception is not caught. *)
Definition unwrap {Chain A} (r : reply A) : M Chain A :=
  match r with
  | Ok a => ret a
  | Err e => raise e
  end.

Definition call {Chain A} (f : Chain -> reply A) (ev : reply A -> event)
  : M Chain A :=
  let* r := view f ev in unwrap r.

(** What a computation guarantees from every chain state: each entry of its
    transcript satisfies [P], and a value it returns satisfies [Q]. *)
Definition spec {Chain A} (m : M Chain A) (P : event -> Prop) (Q : A -> Prop) : Prop :=
  forall c : Chain,
    Forall P (m c).1.2
    /\ match (m c).2 with
       | Ret a => Q a
       | _ => True
       end.

(** ** The script, [src/curve_withdraw.py] *)

(** The command line as argparse sees it once it is split into the four
    options of the parser: the text given to each option, if any.  A command
    line argparse rejects by itself (an unknown option, a missing value) or
    answers by itself (the help option) never reaches the checks below. *)
Record Argv : Type := {
  opt_rpc_url : option string;
  opt_impersonated_address : option string;
  opt_burn_bps : option string;
  opt_dry_run : bool
}.

(** The [argparse.Namespace] that [parser.parse_args] builds. *)
Record Namespace : Type := {
  rpc_url : string;
  impersonated_address : option string;
  burn_bps : Z;
  dry_run : bool
}.

(** [load_dotenv()]: the entries of the .env file are added to the
    environment, the variables already set keep their value. *)
Definition load_dotenv (environ dotenv : gmap string string) : gmap string string :=
  environ ∪ dotenv.

(** Python's truth value of an optional string: [None] and the empty string
    are false. *)
Definition truthy (o : option string) : bool :=
  match o with
  | None => false
  | Some EmptyString => false
  | Some _ => true
  end.

Section Script.

(** The builtin [int] applied to a string: [None] is its ValueError. *)
Variable int_of_str : string -> option Z.

Context {Chain : Type}.
Variable w3 : Fork Chain.

(** The default of [--burn-bps], line 57:
    [int(env.get(config.ENV_BURN_BPS, 100))], computed while the parser is
    built. *)
Definition default_burn_bps (env : gmap string string) : outcome Z :=
  match env !! config.ENV_BURN_BPS with
  | None => Ret 100
  | Some text =>
      match int_of_str text with
      | Some n => Ret n
      | None =>
          Raise (ValueError ("invalid literal for int() with base 10: '" +:+ text +:+ "'"))
      end
  end.

(** Lines 39-67: the parser is built (defaults first), then [argv] is
    parsed; [type=int] turns a text that is no integer into a usage error
    (whose message also quotes the text). *)
Definition parser_parse_args (argv : Argv) (env : gmap string string)
  : outcome Namespace :=
  let default_rpc_url := default config.DEFAULT_RPC_URL (env !! config.ENV_RPC_URL) in
  let default_impersonated_address := env !! config.ENV_IMPERSONATED_ADDRESS in
  match default_burn_bps env with
  | Ret default_bps =>
      let parsed_bps :=
        match opt_burn_bps argv with
        | None => Some default_bps
        | Some text => int_of_str text
        end in
      match parsed_bps with
      | Some bps =>
          Ret {| rpc_url := default default_rpc_url (opt_rpc_url argv);
                 impersonated_address :=
                   match opt_impersonated_address argv with
                   | Some a => Some a
                   | None => default_impersonated_address
                   end;
                 burn_bps := bps;
                 dry_run := opt_dry_run argv |}
      | None => ParserError "argument --burn-bps: invalid int value"
      end
  | SysExit msg => SysExit msg
  | ParserError msg => ParserError msg
  | Raise e => Raise e
  end.

(** [parse_args], lines 38-75. *)
Definition parse_args (argv : Argv) (env : gmap string string)
  : outcome Namespace :=
  match parser_parse_args argv env with
  | Ret args =>
      if negb (truthy (impersonated_address args)) then
        ParserError ("Missing --impersonated-address (or set $"
                       +:+ config.ENV_IMPERSONATED_ADDRESS +:+ ").")
      else if negb ((config.MIN_BURN_BPS <=? burn_bps args)
                    && (burn_bps args <=? config.MAX_BURN_BPS)) then
        ParserError ("--burn-bps must be between " +:+ pretty config.MIN_BURN_BPS
                       +:+ " and " +:+ pretty config.MAX_BURN_BPS +:+ ".")
      else Ret args
  | o => o
  end.

(** [get_web3], lines 78-82.  The model keeps the url: [w3] is the node
    behind it. *)
Definition get_web3 (rpc_url : string) : M Chain unit :=
  let* _ := emit (IsConnected rpc_url (is_connected w3 rpc_url)) in
  if negb (is_connected w3 rpc_url) then
    sys_exit ("Failed to connect to RPC at " +:+ rpc_url
                +:+ ". Is your local fork running?")
  else ret tt.

(** [to_checksum], lines 85-89.  The message ends with the text of the
    ValueError, which the model does not keep. *)
Definition to_checksum (address : string) : M Chain string :=
  match to_checksum_address w3 address with
  | Some a => ret a
  | None => sys_exit ("Invalid Ethereum address provided: " +:+ address +:+ ". Error: ")
  end.

(** [w3.eth.accounts]. *)
Definition eth_accounts : M Chain (list string) :=
  let* _ := emit (Accounts (accounts w3)) in ret (accounts w3).

(** [w3.to_wei(0.1, "ether")]. *)
Definition fund_wei : Z := 100000000000000000.

(** [impersonate_and_fund], lines 92-108. *)
Definition impersonate_and_fund (impersonated funding_account : string)
  : M Chain unit :=
  let* resp :=
    (fun c =>
       let '(c1, error) := anvil_impersonateAccount w3 c impersonated in
       (c1, [ImpersonateAccount impersonated error], Ret error)) in
  if truthy resp then
    sys_exit ("RPC error during impersonation: " +:+ default EmptyString resp)
  else
    let* _ :=
      (fun c =>
         match send_transaction w3 c funding_account impersonated fund_wei with
         | Ok c1 =>
             (c1, [SendTransaction funding_account impersonated fund_wei None], Ret tt)
         | Err e =>
             (c, [SendTransaction funding_account impersonated fund_wei (Some e)], Raise e)
         end) in
    emit (Print (ImpersonationSuccessful fund_wei funding_account impersonated)).

(** The exit of line 119. *)
Definition cannot_find_usdc_msg : string :=
  "Cannot find USDC in pool coins(); expected " +:+ config.USDC_ADDRESS +:+ ".".

Definition cannot_find_usdc {A} : M Chain A := sys_exit cannot_find_usdc_msg.

(** The loop of [get_usdc_index], lines 112-118, over the positions still
    to probe.  [break] and the end of the range both reach line 119. *)
Fixpoint get_usdc_index_loop (pool usdc_address : string) (positions : list Z)
  : M Chain Z :=
  match positions with
  | [] => cannot_find_usdc
  | i :: rest =>
      let* r := view (fun c => coins w3 c pool i) (Coins pool i) in
      match r with
      | Err BadFunctionCallOutput => cannot_find_usdc
      | Err ContractLogicError => cannot_find_usdc
      | Err e => raise e
      | Ok coin_addr =>
          match to_checksum_address w3 coin_addr with
          | None => raise (ValueError coin_addr)
          | Some a =>
              match to_checksum_address w3 usdc_address with
              | None => raise (ValueError usdc_address)
              | Some b =>
                  if String.eqb a b then ret i
                  else get_usdc_index_loop pool usdc_address rest
              end
          end
      end
  end.

(** [range(config.MAX_COINS_CHECK)]. *)
Definition positions_to_check : list Z :=
  map Z.of_nat (seq 0 config.MAX_COINS_CHECK).

(** [get_usdc_index], lines 111-119. *)
Definition get_usdc_index (pool usdc_address : string) : M Chain Z :=
  get_usdc_index_loop pool usdc_address positions_to_check.

(** [read_balances], lines 122-134. *)
Definition read_balances (pool usdc address : string) : M Chain Balances :=
  let* lp_balance := call (fun c => balanceOf w3 c pool address) (BalanceOf pool address) in
  let* usdc_balance := call (fun c => balanceOf w3 c usdc address) (BalanceOf usdc address) in
  let* lp_decimals := call (fun c => decimals w3 c pool) (Decimals pool) in
  let* usdc_decimals := call (fun c => decimals w3 c usdc) (Decimals usdc) in
  let* usdc_symbol := call (fun c => symbol w3 c usdc) (Symbol usdc) in
  ret {| lp_balance := Z.of_N lp_balance;
         usdc_balance := Z.of_N usdc_balance;
         lp_decimals := Z.of_N lp_decimals;
         usdc_decimals := Z.of_N usdc_decimals;
         usdc_symbol := usdc_symbol |}.

(** [estimate_usdc], lines 150-154. *)
Definition estimate_usdc (pool : string) (burn_amount usdc_index : Z) : M Chain Z :=
  let* expected :=
    call (fun c => calc_withdraw_one_coin w3 c pool burn_amount usdc_index)
         (CalcWithdrawOneCoin pool burn_amount usdc_index) in
  if Z.of_N expected =? 0 then
    sys_exit "calc_withdraw_one_coin suggests 0 output; burn amount may be too small or pool is imbalanced."
  else ret (Z.of_N expected).

(** [withdraw_one_coin], lines 157-166: the transaction hash is what the
    caller keeps of the result. *)
Definition withdraw_one_coin (pool : string) (burn_amount usdc_index min_received : Z)
    (receiver : string) : M Chain string :=
  let* mined :=
    (fun c =>
       match remove_liquidity_one_coin w3 c pool burn_amount usdc_index
               min_received receiver receiver with
       | Ok (c1, tx_hash, status) =>
           (c1, [RemoveLiquidityOneCoin pool burn_amount usdc_index
                   min_received receiver receiver (Ok (tx_hash, status))],
            Ret (tx_hash, status))
       | Err e =>
           (c, [RemoveLiquidityOneCoin pool burn_amount usdc_index
                  min_received receiver receiver (Err e)],
            Raise e)
       end) in
  let '(tx_hash, status) := mined in
  if negb (status =? 1) then
    sys_exit ("Transaction failed (status " +:+ pretty status +:+ "). Hash: " +:+ tx_hash)
  else ret tx_hash.

(** [main], lines 241-304. *)
Definition main (argv : Argv) (environ dotenv : gmap string string) : M Chain unit :=
  let env := load_dotenv environ dotenv in
  let* args := lift (parse_args argv env) in
  let rpc_url := rpc_url args in
  let* _ := get_web3 rpc_url in
  (* past [parse_args] the address is a non-empty string *)
  let* impersonated := to_checksum (default EmptyString (impersonated_address args)) in
  let* pool_address := to_checksum config.POOL_ADDRESS in
  let* usdc_address := to_checksum config.USDC_ADDRESS in
  let* accounts := eth_accounts in
  match accounts with
  | [] => sys_exit "No local accounts found; ensure your fork tool exposes funded accounts."
  | _ :: _ =>
      let* accounts := eth_accounts in
      let* funding_account := unwrap (match accounts with
                                      | a :: _ => Ok a
                                      | [] => Err (OtherException "list index out of range")
                                      end) in
      let pool := pool_address in
      let usdc := usdc_address in
      let* _ := impersonate_and_fund impersonated funding_account in
      let* usdc_index := get_usdc_index pool usdc_address in
      let* balances_before := read_balances pool usdc impersonated in
      if lp_balance balances_before =? 0 then
        sys_exit ("LP balance is zero for address " +:+ impersonated
                    +:+ "; please select another LP holder.")
      else
        let* burn_amount := lift (calc_burn_amount (lp_balance balances_before) (burn_bps args)) in
        let* expected_usdc := estimate_usdc pool burn_amount usdc_index in
        let min_received := min_received_of expected_usdc in
        if dry_run args then
          emit (Print (DryRun rpc_url pool_address impersonated balances_before
                         burn_amount usdc_index expected_usdc min_received))
        else
          (* [w3.eth.default_account = impersonated] changes the client only *)
          let* tx_hash := withdraw_one_coin pool burn_amount usdc_index min_received
                            impersonated in
          let* balances_after := read_balances pool usdc impersonated in
          let lp_burned := lp_balance balances_before - lp_balance balances_after in
          let usdc_received := usdc_balance balances_after - usdc_balance balances_before in
          emit (Print (Result rpc_url pool_address impersonated balances_before
                         balances_after burn_amount lp_burned usdc_received
                         expected_usdc min_received tx_hash))
  end.

End Script.

(** ** The two halves of [main]

    The properties of a whole run speak of what happens before and after the
    balance snapshot of line 262.  [setup] is [main] up to line 260 and
    [withdrawal] is [main] from line 262 on, as computations of their own;
    [main_split] below shows that [main] is the one followed by the other. *)

Record context : Type := {
  ctx_args : Namespace;
  ctx_impersonated : string;
  ctx_pool_address : string;
  ctx_usdc_address : string;
  ctx_usdc_index : Z
}.

Section Halves.

Variable int_of_str : string -> option Z.
Context {Chain : Type}.
Variable w3 : Fork Chain.

Definition setup (argv : Argv) (environ dotenv : gmap string string) : M Chain context :=
  let env := load_dotenv environ dotenv in
  let* args := lift (parse_args int_of_str argv env) in
  let* _ := get_web3 w3 (rpc_url args) in
  let* impersonated := to_checksum w3 (default EmptyString (impersonated_address args)) in
  let* pool_address := to_checksum w3 config.POOL_ADDRESS in
  let* usdc_address := to_checksum w3 config.USDC_ADDRESS in
  let* accounts := eth_accounts w3 in
  match accounts with
  | [] => sys_exit "No local accounts found; ensure your fork tool exposes funded accounts."
  | _ :: _ =>
      let* accounts := eth_accounts w3 in
      let* funding_account := unwrap (match accounts with
                                      | a :: _ => Ok a
                                      | [] => Err (OtherException "list index out of range")
                                      end) in
      let* _ := impersonate_and_fund w3 impersonated funding_account in
      let* usdc_index := get_usdc_index w3 pool_address usdc_address in
      ret {| ctx_args := args;
             ctx_impersonated := impersonated;
             ctx_pool_address := pool_address;
             ctx_usdc_address := usdc_address;
             ctx_usdc_index := usdc_index |}
  end.

Definition withdrawal (ctx : context) : M Chain unit :=
  let args := ctx_args ctx in
  let impersonated := ctx_impersonated ctx in
  let pool := ctx_pool_address ctx in
  let usdc := ctx_usdc_address ctx in
  let usdc_index := ctx_usdc_index ctx in
  let* balances_before := read_balances w3 pool usdc impersonated in
  if lp_balance balances_before =? 0 then
    sys_exit ("LP balance is zero for address " +:+ impersonated
                +:+ "; please select another LP holder.")
  else
    let* burn_amount := lift (calc_burn_amount (lp_balance balances_before) (burn_bps args)) in
    let* expected_usdc := estimate_usdc w3 pool burn_amount usdc_index in
    let min_received := min_received_of expected_usdc in
    if dry_run args then
      emit (Print (DryRun (rpc_url args) pool impersonated balances_before
                     burn_amount usdc_index expected_usdc min_received))
    else
      let* tx_hash := withdraw_one_coin w3 pool burn_amount usdc_index min_received
                        impersonated in
      let* balances_after := read_balances w3 pool usdc impersonated in
      let lp_burned := lp_balance balances_before - lp_balance balances_after in
      let usdc_received := usdc_balance balances_after - usdc_balance balances_before in
      emit (Print (Result (rpc_url args) pool impersonated balances_before
                     balances_after burn_amount lp_burned usdc_received
                     expected_usdc min_received tx_hash)).

(** What [setup] hands over: the arguments [parse_args] returned and the
    checksum forms of the two contract addresses. *)
Definition setup_done (argv : Argv) (environ dotenv : gmap string string)
    (ctx : context) : Prop :=
  parse_args int_of_str argv (load_dotenv environ dotenv) = Ret (ctx_args ctx)
  /\ to_checksum_address w3 config.POOL_ADDRESS = Some (ctx_pool_address ctx)
  /\ to_checksum_address w3 config.USDC_ADDRESS = Some (ctx_usdc_address ctx).

End Halves.

(** The exit of line 264. *)
Definition lp_balance_zero_msg (impersonated : string) : string :=
  "LP balance is zero for address " +:+ impersonated
    +:+ "; please select another LP holder.".

(** ** The settings in force *)

(** The impersonated address an invocation gives: the option if it is
    there, the environment variable otherwise. *)
Definition address_in_force (argv : Argv) (env : gmap string string) : option string :=
  match opt_impersonated_address argv with
  | Some a => Some a
  | None => env !! config.ENV_IMPERSONATED_ADDRESS
  end.

(** The burn size an invocation gives, when it is an integer: the option
    if it is there, the environment variable otherwise, and 100 when there
    is neither. *)
Definition burn_bps_in_force (int_of_str : string -> option Z) (argv : Argv)
    (env : gmap string string) : option Z :=
  match opt_burn_bps argv with
  | Some text => int_of_str text
  | None =>
      match env !! config.ENV_BURN_BPS with
      | Some text => int_of_str text
      | None => Some 100
      end
  end.

(** ** Probing the coin list *)

(** Line 117 on a coin address read from the pool: whether the two checksum
    forms are equal; [None] when [to_checksum_address] rejects one of them. *)
Definition same_checksum {Chain} (w3 : Fork Chain) (coin_addr usdc_address : string)
  : option bool :=
  match to_checksum_address w3 coin_addr, to_checksum_address w3 usdc_address with
  | Some a, Some b => Some (String.eqb a b)
  | _, _ => None
  end.

(** Position [i] holds the target: the read succeeds and the addresses are
    equal in checksum form. *)
Definition hits {Chain} (w3 : Fork Chain) (c : Chain) (pool usdc_address : string)
    (i : Z) : bool :=
  match coins w3 c pool i with
  | Ok coin_addr =>
      match same_checksum w3 coin_addr usdc_address with
      | Some true => true
      | _ => false
      end
  | Err _ => false
  end.

(** Position [i] holds another coin: the read succeeds and the addresses
    differ in checksum form. *)
Definition misses {Chain} (w3 : Fork Chain) (c : Chain) (pool usdc_address : string)
    (i : Z) : bool :=
  match coins w3 c pool i with
  | Ok coin_addr =>
      match same_checksum w3 coin_addr usdc_address with
      | Some false => true
      | _ => false
      end
  | Err _ => false
  end.

(** How the loop of [get_usdc_index] may end once it has probed the
    positions [probed], with [rest] left unprobed: it returns the last
    position probed, which holds the target while all before it hold other
    coins; or every position held another coin, none is left, and it exits;
    or the last position probed could not be compared (its read failed, or
    an address has no checksum form) and it exits or raises. *)
Definition loop_ends {Chain} (w3 : Fork Chain) (c : Chain) (pool usdc_address : string)
    (probed rest : list Z) (o : outcome Z) : Prop :=
  (exists before i,
      o = Ret i /\ probed = before ++ [i]
      /\ Forall (fun j => misses w3 c pool usdc_address j = true) before
      /\ hits w3 c pool usdc_address i = true)
  \/ (o = SysExit ("Cannot find USDC in pool coins(); expected " +:+ config.USDC_ADDRESS +:+ ".")
      /\ rest = []
      /\ Forall (fun j => misses w3 c pool usdc_address j = true) probed)
  \/ ((returns o = false /\ exit_status o = 1)
      /\ exists before j,
          probed = before ++ [j]
          /\ Forall (fun j => misses w3 c pool usdc_address j = true) before
          /\ hits w3 c pool usdc_address j = false
          /\ misses w3 c pool usdc_address j = false).

(** The entry a probe of position [i] leaves in the transcript. *)
Definition probe {Chain} (w3 : Fork Chain) (c : Chain) (pool : string) (i : Z) : event :=
  Coins pool i (coins w3 c pool i).

(** The positions [0 .. k-1]. *)
Definition first_positions (k : nat) : list Z := map Z.of_nat (seq 0 k).

(** ** Reading a transcript *)

(** The probes of [get_usdc_index]. *)
Definition is_coins (e : event) : bool :=
  match e with Coins _ _ _ => true | _ => false end.

(** The calls and reports of withdrawal sizing and of what follows it: the
    pool's estimate, the withdrawal, and the two final reports. *)
Definition is_sizing (e : event) : bool :=
  match e with
  | CalcWithdrawOneCoin _ _ _ _ => true
  | RemoveLiquidityOneCoin _ _ _ _ _ _ _ => true
  | Print (DryRun _ _ _ _ _ _ _ _) => true
  | Print (Result _ _ _ _ _ _ _ _ _ _ _) => true
  | _ => false
  end.

(** The state-changing call on the pool (the token contract has none in
    [ERC20_ABI]). *)
Definition is_withdrawal (e : event) : bool :=
  match e with RemoveLiquidityOneCoin _ _ _ _ _ _ _ => true | _ => false end.

(** Any state-changing request. *)
Definition is_transaction (e : event) : bool :=
  match e with
  | SendTransaction _ _ _ _ => true
  | RemoveLiquidityOneCoin _ _ _ _ _ _ _ => true
  | _ => false
  end.

(** The entries that show up only from the balance snapshot on. *)
Definition is_late (e : event) : bool :=
  match e with
  | BalanceOf _ _ _ => true
  | Decimals _ _ => true
  | Symbol _ _ => true
  | _ => is_sizing e
  end.

(** The first balance a run reads (the pool-share balance of line 123). *)
Fixpoint first_balance_read (l : list event) : option (string * string * reply N) :=
  match l with
  | [] => None
  | BalanceOf token holder r :: _ => Some (token, holder, r)
  | _ :: rest => first_balance_read rest
  end.

(** What a withdrawal plan must satisfy: the burn is positive and within
    the share balance, the floor is within the estimate. *)
Definition plan_ok (share_balance burn_amount expected_usdc min_received : Z) : Prop :=
  0 < burn_amount <= share_balance /\ min_received <= expected_usdc.

(** The plans a transcript shows: both reports carry the snapshot and the
    figures; the withdrawal call carries the burn. *)
Definition event_plan_ok (e : event) : Prop :=
  match e with
  | Print (DryRun _ _ _ b burn _ expected minr) =>
      plan_ok (lp_balance b) burn expected minr
  | Print (Result _ _ _ b _ burn _ _ expected minr _) =>
      plan_ok (lp_balance b) burn expected minr
  | RemoveLiquidityOneCoin _ burn _ _ _ _ _ => 0 < burn
  | _ => True
  end.

(** ** A small fork to run the script on *)

Module toy.

(** Integer literals in plain decimal, with an optional sign. *)
Definition int_of_str (text : string) : option Z :=
  Z.of_int <$> DecimalString.NilZero.int_of_string text.

(** One holder, its pool-share and USDC balances. *)
Record chain : Type := {
  lp : N;
  usdc : N
}.

Definition TokenA : string := "0x6B175474E89094C44Da98b954EedeAC495271d0F".
Definition TokenB : string := "0xdAC17F958D2ee523a2206206994597C13D831ec7".
Definition TokenD : string := "0xf939E0A03FB07F59A73314E73794Be0E57ac1b4E".
Definition holder : string := "0x4f493B7dE8aAC7d55F71853688b1F7C8F0243C85".
Definition funder : string := "0xf39Fd6e51aad88F6F4ce6aB8827279cffFb92266".

(** A pool over the coin list [coin_list] that pays one USDC unit for
    [rate] units of pool share. *)
Definition fork (coin_list : list string) (rate : Z) : Fork chain := {|
  is_connected := fun _ => true;
  to_checksum_address := fun a => Some a;
  accounts := [funder];
  anvil_impersonateAccount := fun c _ => (c, None);
  send_transaction := fun c _ _ _ => Ok c;
  coins := fun _ _ i =>
    match coin_list !! Z.to_nat i with
    | Some a => Ok a
    | None => Err ContractLogicError
    end;
  balanceOf := fun c token _ =>
    if String.eqb token config.POOL_ADDRESS then Ok (lp c) else Ok (usdc c);
  decimals := fun _ token =>
    if String.eqb token config.POOL_ADDRESS then Ok 18%N else Ok 6%N;
  symbol := fun _ _ => Ok "USDC";
  calc_withdraw_one_coin := fun _ _ burn _ => Ok (Z.to_N (burn `div` rate));
  remove_liquidity_one_coin := fun c _ burn _ min_received _ _ =>
    let out := burn `div` rate in
    if out <? min_received then Err ContractLogicError
    else Ok ({| lp := lp c - Z.to_N burn; usdc := usdc c + Z.to_N out |},
             "0x5c504ed432cb51138bcf09aa5e8a410dd4a1e204ef84bfed1be16dfba1b22060", 1)
|}.

Definition curve : Fork chain :=
  fork [config.USDC_ADDRESS; TokenD] 1000000000000.

Definition argv (dry : bool) : Argv := {|
  opt_rpc_url := None;
  opt_impersonated_address := Some holder;
  opt_burn_bps := None;
  opt_dry_run := dry
|}.

(** A command line without options. *)
Definition bare : Argv := {|
  opt_rpc_url := None;
  opt_impersonated_address := None;
  opt_burn_bps := None;
  opt_dry_run := false
|}.

(** The same text given to the option instead. *)
Definition malformed_option : Argv := {|
  opt_rpc_url := None;
  opt_impersonated_address := None;
  opt_burn_bps := Some "abc";
  opt_dry_run := false
|}.

(** A holder with one pool share (18 decimals) and 5 units of USDC. *)
Definition funded : chain := {| lp := 1000000000000000000; usdc := 5 |}.

(** A holder whose position pays out one unit of USDC for a burn of 1%. *)
Definition dust : chain := {| lp := 100000000000000; usdc := 5 |}.

(** A holder without pool shares. *)
Definition empty_handed : chain := {| lp := 0; usdc := 5 |}.

(** An environment whose BURN_BPS is no integer. *)
Definition garbled : gmap string string := {[ config.ENV_BURN_BPS := "abc" ]}.

End toy.

(** ** More settings in force *)

(** The endpoint an invocation gives: the option if it is there, the
    RPC_URL variable otherwise, and the local default when there is
    neither. *)
Definition rpc_url_in_force (argv : Argv) (env : gmap string string) : string :=
  match opt_rpc_url argv with
  | Some url => url
  | None =>
      match env !! config.ENV_RPC_URL with
      | Some url => url
      | None => config.DEFAULT_RPC_URL
      end
  end.

(** ** The ways a run ends

    [setup] and [withdrawal] are straight-line code with an exit after
    almost every step.  The two relations below list, for each of them,
    every way to end with the chain state left, the transcript and the
    outcome; [setup_ends_intro] and [withdrawal_ends_intro] show that the
    code ends in no other way. *)

(** Two computations stopped in the same way. *)
Definition same_stop {A B} (o1 : outcome A) (o2 : outcome B) : Prop :=
  match o1, o2 with
  | SysExit m1, SysExit m2 => m1 = m2
  | ParserError m1, ParserError m2 => m1 = m2
  | Raise e1, Raise e2 => e1 = e2
  | _, _ => False
  end.

Section Ends.

Variable int_of_str : string -> option Z.
Context {Chain : Type}.
Variable w3 : Fork Chain.

(** The exit of line 252. *)
Definition no_accounts_msg : string :=
  "No local accounts found; ensure your fork tool exposes funded accounts.".

(** The exit of line 153. *)
Definition zero_estimate_msg : string :=
  "calc_withdraw_one_coin suggests 0 output; burn amount may be too small or pool is imbalanced.".

(** The exit of line 165. *)
Definition transaction_failed_msg (status : Z) (tx_hash : string) : string :=
  "Transaction failed (status " +:+ pretty status +:+ "). Hash: " +:+ tx_hash.

(** The validation gates of lines 243-253 are passed: the arguments are
    accepted, the node answers, the three addresses have a checksum form and
    the node exposes an account. *)
Record gates_passed (argv : Argv) (environ dotenv : gmap string string)
    (args : Namespace) (impersonated pool usdc funder : string) : Prop := {
  gate_args : parse_args int_of_str argv (load_dotenv environ dotenv) = Ret args;
  gate_node : is_connected w3 (rpc_url args) = true;
  gate_holder : to_checksum_address w3 (default EmptyString (impersonated_address args))
                = Some impersonated;
  gate_pool : to_checksum_address w3 config.POOL_ADDRESS = Some pool;
  gate_usdc : to_checksum_address w3 config.USDC_ADDRESS = Some usdc;
  gate_funder : exists others, accounts w3 = funder :: others
}.

Inductive setup_ends (argv : Argv) (environ dotenv : gmap string string) (c : Chain)
  : Chain -> list event -> outcome context -> Prop :=
| setup_rejected (o : outcome context) :
    same_stop (parse_args int_of_str argv (load_dotenv environ dotenv)) o ->
    setup_ends argv environ dotenv c c [] o
| setup_unreachable (args : Namespace) (msg : string) :
    parse_args int_of_str argv (load_dotenv environ dotenv) = Ret args ->
    is_connected w3 (rpc_url args) = false ->
    setup_ends argv environ dotenv c c [IsConnected (rpc_url args) false] (SysExit msg)
| setup_bad_address (args : Namespace) (msg : string) :
    parse_args int_of_str argv (load_dotenv environ dotenv) = Ret args ->
    is_connected w3 (rpc_url args) = true ->
    to_checksum_address w3 (default EmptyString (impersonated_address args)) = None
    \/ to_checksum_address w3 config.POOL_ADDRESS = None
    \/ to_checksum_address w3 config.USDC_ADDRESS = None ->
    setup_ends argv environ dotenv c c [IsConnected (rpc_url args) true] (SysExit msg)
| setup_no_accounts (args : Namespace) :
    parse_args int_of_str argv (load_dotenv environ dotenv) = Ret args ->
    is_connected w3 (rpc_url args) = true ->
    accounts w3 = [] ->
    setup_ends argv environ dotenv c c
      [IsConnected (rpc_url args) true; Accounts []] (SysExit no_accounts_msg)
| setup_impersonation_error (args : Namespace) (impersonated pool usdc funder : string)
    (c1 : Chain) (error : option string) (msg : string) :
    gates_passed argv environ dotenv args impersonated pool usdc funder ->
    anvil_impersonateAccount w3 c impersonated = (c1, error) ->
    truthy error = true ->
    setup_ends argv environ dotenv c c1
      [IsConnected (rpc_url args) true; Accounts (accounts w3); Accounts (accounts w3);
       ImpersonateAccount impersonated error]
      (SysExit msg)
| setup_funding_raised (args : Namespace) (impersonated pool usdc funder : string)
    (c1 : Chain) (error : option string) (e : exn) :
    gates_passed argv environ dotenv args impersonated pool usdc funder ->
    anvil_impersonateAccount w3 c impersonated = (c1, error) ->
    truthy error = false ->
    send_transaction w3 c1 funder impersonated fund_wei = Err e ->
    setup_ends argv environ dotenv c c1
      [IsConnected (rpc_url args) true; Accounts (accounts w3); Accounts (accounts w3);
       ImpersonateAccount impersonated error;
       SendTransaction funder impersonated fund_wei (Some e)]
      (Raise e)
| setup_unresolved (args : Namespace) (impersonated pool usdc funder : string)
    (c1 c2 : Chain) (error : option string) (probes : list event) (o : outcome Z)
    (o' : outcome context) :
    gates_passed argv environ dotenv args impersonated pool usdc funder ->
    anvil_impersonateAccount w3 c impersonated = (c1, error) ->
    truthy error = false ->
    send_transaction w3 c1 funder impersonated fund_wei = Ok c2 ->
    get_usdc_index w3 pool usdc c2 = (c2, probes, o) ->
    returns o = false -> returns o' = false -> exit_status o' = 1 ->
    setup_ends argv environ dotenv c c2
      ([IsConnected (rpc_url args) true; Accounts (accounts w3); Accounts (accounts w3);
        ImpersonateAccount impersonated error;
        SendTransaction funder impersonated fund_wei None;
        Print (ImpersonationSuccessful fund_wei funder impersonated)] ++ probes)
      o'
| setup_complete (args : Namespace) (impersonated pool usdc funder : string)
    (c1 c2 : Chain) (error : option string) (probes : list event) (usdc_index : Z) :
    gates_passed argv environ dotenv args impersonated pool usdc funder ->
    anvil_impersonateAccount w3 c impersonated = (c1, error) ->
    truthy error = false ->
    send_transaction w3 c1 funder impersonated fund_wei = Ok c2 ->
    get_usdc_index w3 pool usdc c2 = (c2, probes, Ret usdc_index) ->
    setup_ends argv environ dotenv c c2
      ([IsConnected (rpc_url args) true; Accounts (accounts w3); Accounts (accounts w3);
        ImpersonateAccount impersonated error;
        SendTransaction funder impersonated fund_wei None;
        Print (ImpersonationSuccessful fund_wei funder impersonated)] ++ probes)
      (Ret {| ctx_args := args;
              ctx_impersonated := impersonated;
              ctx_pool_address := pool;
              ctx_usdc_address := usdc;
              ctx_usdc_index := usdc_index |}).

(** What follows a mined transaction (lines 164-304): the exit on a status
    other than 1, or the second snapshot and the report. *)
Inductive after_mined (ctx : context) (b : Balances) (burn expected : Z) (c1 : Chain)
    (tx_hash : string) (status : Z)
  : Chain -> list event -> outcome unit -> Prop :=
| status_failed :
    status <> 1 ->
    after_mined ctx b burn expected c1 tx_hash status c1 []
      (SysExit (transaction_failed_msg status tx_hash))
| second_snapshot_failed (reads : list event) (e : exn) :
    status = 1 ->
    read_balances w3 (ctx_pool_address ctx) (ctx_usdc_address ctx) (ctx_impersonated ctx) c1
    = (c1, reads, Raise e) ->
    after_mined ctx b burn expected c1 tx_hash status c1 reads (Raise e)
| result_reported (reads : list event) (after : Balances) :
    status = 1 ->
    read_balances w3 (ctx_pool_address ctx) (ctx_usdc_address ctx) (ctx_impersonated ctx) c1
    = (c1, reads, Ret after) ->
    after_mined ctx b burn expected c1 tx_hash status c1
      (reads ++ [Print (Result (rpc_url (ctx_args ctx)) (ctx_pool_address ctx)
                          (ctx_impersonated ctx) b after burn
                          (lp_balance b - lp_balance after)
                          (usdc_balance after - usdc_balance b)
                          expected (min_received_of expected) tx_hash)])
      (Ret tt).

Inductive withdrawal_ends (ctx : context) (c : Chain)
  : Chain -> list event -> outcome unit -> Prop :=
| snapshot_failed (reads : list event) (e : exn) :
    read_balances w3 (ctx_pool_address ctx) (ctx_usdc_address ctx) (ctx_impersonated ctx) c
    = (c, reads, Raise e) ->
    withdrawal_ends ctx c c reads (Raise e)
| no_shares (reads : list event) (b : Balances) :
    read_balances w3 (ctx_pool_address ctx) (ctx_usdc_address ctx) (ctx_impersonated ctx) c
    = (c, reads, Ret b) ->
    lp_balance b = 0 ->
    withdrawal_ends ctx c c reads (SysExit (lp_balance_zero_msg (ctx_impersonated ctx)))
| too_small (reads : list event) (b : Balances) (msg : string) :
    read_balances w3 (ctx_pool_address ctx) (ctx_usdc_address ctx) (ctx_impersonated ctx) c
    = (c, reads, Ret b) ->
    lp_balance b <> 0 ->
    calc_burn_amount (lp_balance b) (burn_bps (ctx_args ctx)) = SysExit msg ->
    withdrawal_ends ctx c c reads (SysExit msg)
| estimate_raised (reads : list event) (b : Balances) (burn : Z) (e : exn) :
    read_balances w3 (ctx_pool_address ctx) (ctx_usdc_address ctx) (ctx_impersonated ctx) c
    = (c, reads, Ret b) ->
    lp_balance b <> 0 ->
    calc_burn_amount (lp_balance b) (burn_bps (ctx_args ctx)) = Ret burn ->
    calc_withdraw_one_coin w3 c (ctx_pool_address ctx) burn (ctx_usdc_index ctx) = Err e ->
    withdrawal_ends ctx c c
      (reads ++ [CalcWithdrawOneCoin (ctx_pool_address ctx) burn (ctx_usdc_index ctx) (Err e)])
      (Raise e)
| estimate_zero (reads : list event) (b : Balances) (burn : Z) :
    read_balances w3 (ctx_pool_address ctx) (ctx_usdc_address ctx) (ctx_impersonated ctx) c
    = (c, reads, Ret b) ->
    lp_balance b <> 0 ->
    calc_burn_amount (lp_balance b) (burn_bps (ctx_args ctx)) = Ret burn ->
    calc_withdraw_one_coin w3 c (ctx_pool_address ctx) burn (ctx_usdc_index ctx) = Ok 0%N ->
    withdrawal_ends ctx c c
      (reads ++ [CalcWithdrawOneCoin (ctx_pool_address ctx) burn (ctx_usdc_index ctx) (Ok 0%N)])
      (SysExit zero_estimate_msg)
| dry_run_reported (reads : list event) (b : Balances) (burn : Z) (expected : N) :
    read_balances w3 (ctx_pool_address ctx) (ctx_usdc_address ctx) (ctx_impersonated ctx) c
    = (c, reads, Ret b) ->
    lp_balance b <> 0 ->
    calc_burn_amount (lp_balance b) (burn_bps (ctx_args ctx)) = Ret burn ->
    calc_withdraw_one_coin w3 c (ctx_pool_address ctx) burn (ctx_usdc_index ctx)
    = Ok expected ->
    expected <> 0%N ->
    dry_run (ctx_args ctx) = true ->
    withdrawal_ends ctx c c
      (reads ++ [CalcWithdrawOneCoin (ctx_pool_address ctx) burn (ctx_usdc_index ctx)
                   (Ok expected);
                 Print (DryRun (rpc_url (ctx_args ctx)) (ctx_pool_address ctx)
                          (ctx_impersonated ctx) b burn (ctx_usdc_index ctx)
                          (Z.of_N expected) (min_received_of (Z.of_N expected)))])
      (Ret tt)
| transaction_raised (reads : list event) (b : Balances) (burn : Z) (expected : N)
    (e : exn) :
    read_balances w3 (ctx_pool_address ctx) (ctx_usdc_address ctx) (ctx_impersonated ctx) c
    = (c, reads, Ret b) ->
    lp_balance b <> 0 ->
    calc_burn_amount (lp_balance b) (burn_bps (ctx_args ctx)) = Ret burn ->
    calc_withdraw_one_coin w3 c (ctx_pool_address ctx) burn (ctx_usdc_index ctx)
    = Ok expected ->
    expected <> 0%N ->
    dry_run (ctx_args ctx) = false ->
    remove_liquidity_one_coin w3 c (ctx_pool_address ctx) burn (ctx_usdc_index ctx)
      (min_received_of (Z.of_N expected)) (ctx_impersonated ctx) (ctx_impersonated ctx)
    = Err e ->
    withdrawal_ends ctx c c
      (reads ++ [CalcWithdrawOneCoin (ctx_pool_address ctx) burn (ctx_usdc_index ctx)
                   (Ok expected);
                 RemoveLiquidityOneCoin (ctx_pool_address ctx) burn (ctx_usdc_index ctx)
                   (min_received_of (Z.of_N expected)) (ctx_impersonated ctx)
                   (ctx_impersonated ctx) (Err e)])
      (Raise e)
| transaction_mined (reads : list event) (b : Balances) (burn : Z) (expected : N)
    (c1 c2 : Chain) (tx_hash : string) (status : Z) (rest : list event)
    (o : outcome unit) :
    read_balances w3 (ctx_pool_address ctx) (ctx_usdc_address ctx) (ctx_impersonated ctx) c
    = (c, reads, Ret b) ->
    lp_balance b <> 0 ->
    calc_burn_amount (lp_balance b) (burn_bps (ctx_args ctx)) = Ret burn ->
    calc_withdraw_one_coin w3 c (ctx_pool_address ctx) burn (ctx_usdc_index ctx)
    = Ok expected ->
    expected <> 0%N ->
    dry_run (ctx_args ctx) = false ->
    remove_liquidity_one_coin w3 c (ctx_pool_address ctx) burn (ctx_usdc_index ctx)
      (min_received_of (Z.of_N expected)) (ctx_impersonated ctx) (ctx_impersonated ctx)
    = Ok (c1, tx_hash, status) ->
    after_mined ctx b burn (Z.of_N expected) c1 tx_hash status c2 rest o ->
    withdrawal_ends ctx c c2
      (reads ++ [CalcWithdrawOneCoin (ctx_pool_address ctx) burn (ctx_usdc_index ctx)
                   (Ok expected);
                 RemoveLiquidityOneCoin (ctx_pool_address ctx) burn (ctx_usdc_index ctx)
                   (min_received_of (Z.of_N expected)) (ctx_impersonated ctx)
                   (ctx_impersonated ctx) (Ok (tx_hash, status))] ++ rest)
      o.

End Ends.

(** ** More on reading a transcript *)

(** The requests of the validation gates: the connection check and the
    listing of accounts. *)
Definition is_gate (e : event) : bool :=
  match e with
  | IsConnected _ _ => true
  | Accounts _ => true
  | _ => false
  end.

(** The reads of a balance snapshot. *)
Definition is_read (e : event) : bool :=
  match e with
  | BalanceOf _ _ _ => true
  | Decimals _ _ => true
  | Symbol _ _ => true
  | _ => false
  end.

(** The answer to the first impersonation request of a run, with the
    account it names. *)
Fixpoint impersonation_reply (l : list event) : option (string * option string) :=
  match l with
  | [] => None
  | ImpersonateAccount a error :: _ => Some (a, error)
  | _ :: rest => impersonation_reply rest
  end.

(** The first funding transfer of a run. *)
Fixpoint funding_transfer (l : list event) : option (string * string * Z * option exn) :=
  match l with
  | [] => None
  | SendTransaction from to value r :: _ => Some (from, to, value, r)
  | _ :: rest => funding_transfer rest
  end.

(** The answer to the first estimate a run asks of the pool. *)
Fixpoint estimate_reply (l : list event) : option (reply N) :=
  match l with
  | [] => None
  | CalcWithdrawOneCoin _ _ _ r :: _ => Some r
  | _ :: rest => estimate_reply rest
  end.

(** The answer to the first withdrawal a run sends. *)
Fixpoint withdrawal_reply (l : list event) : option (reply (string * Z)) :=
  match l with
  | [] => None
  | RemoveLiquidityOneCoin _ _ _ _ _ _ r :: _ => Some r
  | _ :: rest => withdrawal_reply rest
  end.

(** Every withdrawal in a transcript comes right after the pool's estimate
    for the same pool, burn and index; that estimate is not zero, the floor
    sent is 99 hundredths of it, rounded down, and the output goes to the
    sender.  [prev] is the entry before the transcript. *)
Fixpoint withdrawals_guarded (prev : option event) (l : list event) : Prop :=
  match l with
  | [] => True
  | e :: rest =>
      match e with
      | RemoveLiquidityOneCoin pool burn i min_received receiver sender _ =>
          match prev with
          | Some (CalcWithdrawOneCoin pool' burn' i' (Ok expected)) =>
              pool' = pool /\ burn' = burn /\ i' = i
              /\ expected <> 0%N
              /\ min_received = (Z.of_N expected * 99) `div` 100
              /\ receiver = sender
          | _ => False
          end
      | _ => True
      end
      /\ withdrawals_guarded (Some e) rest
  end.

(** The withdrawals of a transcript are all sent on [pool] by [holder], to
    [holder]. *)
Definition withdrawal_from (pool holder : string) (e : event) : Prop :=
  match e with
  | RemoveLiquidityOneCoin pool' _ _ _ receiver sender _ =>
      pool' = pool /\ receiver = holder /\ sender = holder
  | _ => True
  end.

(** The invocation with the dry-run flag taken off. *)
Definition live (argv : Argv) : Argv :=
  {| opt_rpc_url := opt_rpc_url argv;
     opt_impersonated_address := opt_impersonated_address argv;
     opt_burn_bps := opt_burn_bps argv;
     opt_dry_run := false |}.

(** ** More forks to run the script on *)

Module scenario.

(** The small pool of [toy.curve], behind a node that may be unreachable,
    may refuse the impersonation, and mines the withdrawal with the given
    receipt status; [rate] pool-share units pay one unit of USDC. *)
Definition fork (connected : bool) (refusal : option string) (status rate : Z)
  : Fork toy.chain := {|
  is_connected := fun _ => connected;
  to_checksum_address := fun a => Some a;
  accounts := [toy.funder];
  anvil_impersonateAccount := fun c _ => (c, refusal);
  send_transaction := fun c _ _ _ => Ok c;
  coins := fun _ _ i =>
    match [config.USDC_ADDRESS; toy.TokenD] !! Z.to_nat i with
    | Some a => Ok a
    | None => Err ContractLogicError
    end;
  balanceOf := fun c token _ =>
    if String.eqb token config.POOL_ADDRESS then Ok (toy.lp c) else Ok (toy.usdc c);
  decimals := fun _ token =>
    if String.eqb token config.POOL_ADDRESS then Ok 18%N else Ok 6%N;
  symbol := fun _ _ => Ok "USDC";
  calc_withdraw_one_coin := fun _ _ burn _ => Ok (Z.to_N (burn `div` rate));
  remove_liquidity_one_coin := fun c _ burn _ min_received _ _ =>
    let out := burn `div` rate in
    if out <? min_received then Err ContractLogicError
    else Ok ({| toy.lp := toy.lp c - Z.to_N burn; toy.usdc := toy.usdc c + Z.to_N out |},
             "0x5c504ed432cb51138bcf09aa5e8a410dd4a1e204ef84bfed1be16dfba1b22060", status)
|}.

Definition offline : Fork toy.chain := fork false None 1 1000000000000.
Definition refusing : Fork toy.chain := fork true (Some "account locked") 1 1000000000000.
Definition reverting : Fork toy.chain := fork true None 0 1000000000000.
Definition imbalanced : Fork toy.chain :=
  fork true None 1 1000000000000000000000000000000.

(** A holder of 50 raw units of pool share. *)
Definition crumbs : toy.chain := {| toy.lp := 50; toy.usdc := 5 |}.

(** An empty address on the command line, an address in the environment. *)
Definition empty_address : Argv := {|
  opt_rpc_url := None;
  opt_impersonated_address := Some EmptyString;
  opt_burn_bps := None;
  opt_dry_run := false
|}.

Definition with_address : gmap string string :=
  {[ config.ENV_IMPERSONATED_ADDRESS := toy.holder ]}.

End scenario.

(** * Properties *)

(** ** Withdrawal sizing *)

Lemma max_burn_bps_eq : config.MAX_BURN_BPS = 10000.
Proof. reflexivity. Qed.

Lemma slippage_bps_eq : config.SLIPPAGE_BPS = 99.
Proof. reflexivity. Qed.

(** The two ways [calc_burn_amount] ends, by the value of the quotient. *)
Lemma calc_burn_amount_cases (lp_balance burn_bps : Z) :
  let q := (lp_balance * burn_bps) `div` 10000 in
  (q = 0 /\ returns (calc_burn_amount lp_balance burn_bps) = false)
  \/ (q <> 0 /\ calc_burn_amount lp_balance burn_bps = Ret q).
Proof.
  unfold calc_burn_amount. rewrite max_burn_bps_eq. cbv zeta.
  destruct (Z.eqb_spec ((lp_balance * burn_bps) `div` 10000) 0) as [E | E].
  - left. split; [exact E | reflexivity].
  - right. split; [exact E | reflexivity].
Qed.

(** What [calc_burn_amount] returns is the quotient, and it is not zero. *)
Lemma calc_burn_amount_ret (lp_balance burn_bps burn : Z) :
  calc_burn_amount lp_balance burn_bps = Ret burn ->
  burn = (lp_balance * burn_bps) `div` 10000 /\ burn <> 0.
Proof.
  intros H. destruct (calc_burn_amount_cases lp_balance burn_bps) as [[_ E] | [N E]].
  - rewrite H in E. discriminate.
  - rewrite H in E. injection E as ->. split; [reflexivity | exact N].
Qed.

(** The quotient by 10000 is the floor: the one integer [q] with
    [10000 * q <= n < 10000 * (q + 1)]. *)
Lemma floor_10000 (n : Z) :
  10000 * (n `div` 10000) <= n < 10000 * (n `div` 10000 + 1).
Proof.
  pose proof (Z.div_mod n 10000 ltac:(lia)).
  pose proof (Z.mod_pos_bound n 10000 ltac:(lia)).
  lia.
Qed.

(** C1, as the claim states it, fails: with a share balance of 50 and one
    basis point the floor is 0, and [calc_burn_amount] exits instead of
    returning it. *)
Lemma calc_burn_amount_not_total :
  ~ (forall lp_balance burn_bps : Z,
       0 < lp_balance -> 1 <= burn_bps <= 10000 ->
       calc_burn_amount lp_balance burn_bps
       = Ret ((lp_balance * burn_bps) `div` 10000)).
Proof.
  intros H. specialize (H 50 1 ltac:(lia) ltac:(lia)). vm_compute in H. discriminate H.
Qed.

(** C1, amended: for a positive share balance and basis points in
    [1, 10000], whenever the floor of [lp_balance * burn_bps / 10000] is not
    zero (that is, [lp_balance * burn_bps >= 10000]) [calc_burn_amount]
    returns that floor; and for a fixed share balance, once it returns for
    some basis points it returns for every larger value up to 10000, with a
    result at least as large. *)
Theorem calc_burn_amount_floor_monotone (lp_balance burn_bps : Z) :
  0 < lp_balance -> 1 <= burn_bps <= 10000 ->
  (10000 <= lp_balance * burn_bps ->
   exists burn, calc_burn_amount lp_balance burn_bps = Ret burn
                /\ 10000 * burn <= lp_balance * burn_bps < 10000 * (burn + 1))
  /\ (forall burn_bps' burn,
        burn_bps <= burn_bps' <= 10000 ->
        calc_burn_amount lp_balance burn_bps = Ret burn ->
        exists burn', calc_burn_amount lp_balance burn_bps' = Ret burn'
                      /\ burn <= burn').
Proof.
  intros Hlp Hbps. split.
  - intros Hbig.
    destruct (calc_burn_amount_cases lp_balance burn_bps) as [[E _] | [_ E]].
    + pose proof (floor_10000 (lp_balance * burn_bps)). lia.
    + eexists. split; [exact E | apply floor_10000].
  - intros burn_bps' burn Hle Hret.
    apply calc_burn_amount_ret in Hret as [-> Hnz].
    assert (Hmono : (lp_balance * burn_bps) `div` 10000
                    <= (lp_balance * burn_bps') `div` 10000).
    { apply Z.div_le_mono; nia. }
    assert (Hpos : 0 <= (lp_balance * burn_bps) `div` 10000).
    { apply Z.div_pos; nia. }
    destruct (calc_burn_amount_cases lp_balance burn_bps') as [[E _] | [_ E]].
    + lia.
    + eexists. split; [exact E | exact Hmono].
Qed.

Lemma calc_burn_amount_floor_monotone_witness :
  (exists burn, calc_burn_amount 1000000 100 = Ret burn
                /\ 10000 * burn <= 1000000 * 100 < 10000 * (burn + 1))
  /\ (forall burn_bps' burn,
        100 <= burn_bps' <= 10000 ->
        calc_burn_amount 1000000 100 = Ret burn ->
        exists burn', calc_burn_amount 1000000 burn_bps' = Ret burn'
                      /\ burn <= burn').
Proof.
  destruct (calc_burn_amount_floor_monotone 1000000 100 ltac:(lia) ltac:(lia)) as [F Mo].
  split; [apply F; lia | exact Mo].
Defined.

(** C2: for a non-negative estimate the floor on the output is
    [expected * 99 // 100], the product divided by 100 with the fraction
    cut off; 1_000_000 gives 990000. *)
Theorem min_received_truncates (expected_usdc : Z) :
  0 <= expected_usdc ->
  min_received_of expected_usdc = (expected_usdc * 99) `div` 100
  /\ min_received_of expected_usdc = (expected_usdc * 99) `quot` 100
  /\ 100 * min_received_of expected_usdc <= expected_usdc * 99
     < 100 * (min_received_of expected_usdc + 1)
  /\ min_received_of 1000000 = 990000.
Proof.
  intros Hpos. unfold min_received_of. rewrite slippage_bps_eq.
  split; [reflexivity |]. split.
  - symmetry. apply Z.quot_div_nonneg; lia.
  - split; [| reflexivity].
    pose proof (Z.div_mod (expected_usdc * 99) 100 ltac:(lia)).
    pose proof (Z.mod_pos_bound (expected_usdc * 99) 100 ltac:(lia)).
    lia.
Qed.

Lemma min_received_truncates_witness :
  min_received_of 9850 = (9850 * 99) `div` 100
  /\ min_received_of 9850 = (9850 * 99) `quot` 100
  /\ 100 * min_received_of 9850 <= 9850 * 99 < 100 * (min_received_of 9850 + 1)
  /\ min_received_of 1000000 = 990000.
Proof. apply (min_received_truncates 9850). lia. Defined.

(** C3: whenever the floor of [lp_balance * burn_bps / 10000] is zero,
    [calc_burn_amount] ends the process with the sizing message (status 1)
    and returns nothing; so it never returns zero.  A balance of 50 with one
    basis point is such a case. *)
Theorem calc_burn_amount_zero_exits (lp_balance burn_bps : Z) :
  (lp_balance * burn_bps) `div` 10000 = 0 ->
  calc_burn_amount lp_balance burn_bps
  = SysExit "Computed burn amount is zero; LP position may be too small for the requested --burn-bps."
  /\ exit_status (calc_burn_amount lp_balance burn_bps) = 1
  /\ (forall lp bps, calc_burn_amount lp bps <> Ret 0)
  /\ returns (calc_burn_amount 50 1) = false.
Proof.
  intros Hz.
  assert (E : calc_burn_amount lp_balance burn_bps
              = SysExit "Computed burn amount is zero; LP position may be too small for the requested --burn-bps.").
  { unfold calc_burn_amount. rewrite max_burn_bps_eq. cbv zeta. rewrite Hz. reflexivity. }
  split; [exact E |]. split; [rewrite E; reflexivity |]. split; [| reflexivity].
  intros lp bps H. apply calc_burn_amount_ret in H as [_ H]. apply H. reflexivity.
Qed.

Lemma calc_burn_amount_zero_exits_witness :
  calc_burn_amount 50 1
  = SysExit "Computed burn amount is zero; LP position may be too small for the requested --burn-bps."
  /\ exit_status (calc_burn_amount 50 1) = 1
  /\ (forall lp bps, calc_burn_amount lp bps <> Ret 0)
  /\ returns (calc_burn_amount 50 1) = false.
Proof. apply (calc_burn_amount_zero_exits 50 1). reflexivity. Defined.

(** ** Asset-index resolution *)

Section Resolution.

Context {Chain : Type}.
Variable w3 : Fork Chain.
Variable c : Chain.
Variables pool usdc_address : string.

Lemma hits_not_misses (i : Z) :
  hits w3 c pool usdc_address i = true -> misses w3 c pool usdc_address i = false.
Proof.
  unfold hits, misses. destruct (coins w3 c pool i) as [coin | e]; [| discriminate].
  destruct (same_checksum w3 coin usdc_address) as [[] |]; congruence.
Qed.

Lemma loop_ends_hit (i : Z) (rest : list Z) :
  hits w3 c pool usdc_address i = true ->
  loop_ends w3 c pool usdc_address [i] rest (Ret i).
Proof.
  intros H. left. exists [], i. repeat split; [constructor | exact H].
Qed.

Lemma loop_ends_stop (i : Z) (rest : list Z) (o : outcome Z) :
  returns o = false -> exit_status o = 1 ->
  hits w3 c pool usdc_address i = false ->
  misses w3 c pool usdc_address i = false ->
  loop_ends w3 c pool usdc_address [i] rest o.
Proof.
  intros Hr He Hh Hm. right; right. split; [split; assumption |].
  exists [], i. repeat split; [constructor | exact Hh | exact Hm].
Qed.

Lemma loop_ends_miss (i : Z) (probed rest : list Z) (o : outcome Z) :
  misses w3 c pool usdc_address i = true ->
  loop_ends w3 c pool usdc_address probed rest o ->
  loop_ends w3 c pool usdc_address (i :: probed) rest o.
Proof.
  intros Hm [(before & i0 & Ho & Hp & Hall & Hhit)
            | [(Ho & Hrest & Hall) | (Ho & before & j & Hp & Hall & Hnh & Hnm)]].
  - left. exists (i :: before), i0. rewrite Hp.
    repeat split; [exact Ho | constructor; assumption | exact Hhit].
  - right; left. repeat split; [exact Ho | exact Hrest | constructor; assumption].
  - right; right. split; [exact Ho |]. exists (i :: before), j. rewrite Hp.
    repeat split; [constructor; assumption | exact Hnh | exact Hnm].
Qed.

(** The loop probes a prefix of the positions it is given, in their order,
    leaves the chain as it is, and ends as [loop_ends] says. *)
Lemma get_usdc_index_loop_spec (positions : list Z) :
  exists (probed rest : list Z) (o : outcome Z),
    get_usdc_index_loop w3 pool usdc_address positions c
    = (c, map (probe w3 c pool) probed, o)
    /\ positions = probed ++ rest
    /\ loop_ends w3 c pool usdc_address probed rest o.
Proof.
  induction positions as [| i ps IH].
  - exists [], [], (SysExit cannot_find_usdc_msg). split; [reflexivity |].
    split; [reflexivity |]. right; left. repeat split; constructor.
  - destruct IH as (probed & rest & o & Hrun & Hps & Hend).
    cbn [get_usdc_index_loop]. unfold bind, view. cbn beta iota.
    pose proof (loop_ends_hit i ps) as Hit.
    pose proof (loop_ends_stop i ps) as Stop.
    pose proof (loop_ends_miss i probed rest o) as Miss.
    unfold hits, misses, same_checksum in Hit, Stop, Miss.
    assert (Hev : probe w3 c pool i = Coins pool i (coins w3 c pool i)) by reflexivity.
    destruct (coins w3 c pool i) as [coin | e].
    + destruct (to_checksum_address w3 coin) as [a |].
      * destruct (to_checksum_address w3 usdc_address) as [b |].
        -- destruct (String.eqb a b).
           ++ exists [i], ps, (Ret i). cbn [map app]. rewrite Hev.
              repeat split; [apply Hit; reflexivity].
           ++ rewrite Hrun. exists (i :: probed), rest, o. cbn [map app]. rewrite Hev, Hps.
              repeat split; [apply Miss; [reflexivity | exact Hend]].
        -- exists [i], ps, (Raise (ValueError usdc_address)). cbn [map app]. rewrite Hev.
           repeat split; [apply Stop; reflexivity].
      * exists [i], ps, (Raise (ValueError coin)). cbn [map app]. rewrite Hev.
        repeat split; [apply Stop; reflexivity].
    + destruct e as [msg | | | msg];
        (eexists [i], ps, _; cbn [map app]; rewrite Hev;
         split; [reflexivity |]; split; [reflexivity |]; apply Stop; reflexivity).
Qed.

End Resolution.

(** Facts on the range of positions. *)

Lemma first_positions_S (m : nat) :
  first_positions (S m) = first_positions m ++ [Z.of_nat m].
Proof.
  unfold first_positions. rewrite List.seq_S, List.map_app. reflexivity.
Qed.

Lemma first_positions_prefix (n : nat) (probed rest : list Z) :
  first_positions n = probed ++ rest ->
  probed = first_positions (length probed) /\ (length probed <= n)%nat.
Proof.
  unfold first_positions. intros H.
  assert (Hlen : n = (length probed + length rest)%nat).
  { apply (f_equal (@length Z)) in H.
    rewrite List.length_map, List.length_seq, List.length_app in H. exact H. }
  split; [| lia].
  rewrite <- (take_app_length probed rest) at 1.
  rewrite <- H, List.firstn_map, take_seq.
  replace (Nat.min (length probed) n) with (length probed) by lia. reflexivity.
Qed.

Lemma first_positions_snoc (n : nat) (before rest : list Z) (j : Z) :
  first_positions n = (before ++ [j]) ++ rest ->
  before = first_positions (length before) /\ j = Z.of_nat (length before)
  /\ (length before < n)%nat.
Proof.
  intros H. apply first_positions_prefix in H as [H Hle].
  rewrite List.length_app in H, Hle. cbn [length] in H, Hle.
  replace (length before + 1)%nat with (S (length before)) in H by lia.
  rewrite first_positions_S in H. apply List.app_inj_tail in H as [H1 H2].
  repeat split; [exact H1 | exact H2 | lia].
Qed.

Lemma Forall_first_positions (P : Z -> Prop) (m : nat) :
  Forall P (first_positions m) <-> forall j, (j < m)%nat -> P (Z.of_nat j).
Proof.
  unfold first_positions. rewrite List.Forall_map, List.Forall_forall. split.
  - intros H j Hj. apply H. apply List.in_seq. lia.
  - intros H j Hj. apply H. apply List.in_seq in Hj. lia.
Qed.

(** [get_usdc_index] on any fork: the positions probed are [0 .. k-1] for
    some [k] between 1 and 4, every position before the last probed holds
    another coin, and the last probed is where the loop stopped unless the
    bound was reached; it returns [i] exactly when [i] is below the bound,
    holds the target and every position before it holds another coin;
    otherwise the process ends with status 1. *)
Lemma get_usdc_index_spec {Chain : Type} (w3 : Fork Chain) (c : Chain)
    (pool usdc_address : string) :
  exists (k : nat) (o : outcome Z),
    get_usdc_index w3 pool usdc_address c
    = (c, map (probe w3 c pool) (first_positions k), o)
    /\ (1 <= k <= 4)%nat
    /\ (forall j, (S j < k)%nat -> misses w3 c pool usdc_address (Z.of_nat j) = true)
    /\ (k = 4%nat \/ misses w3 c pool usdc_address (Z.of_nat (k - 1)) = false)
    /\ (forall i, o = Ret i <->
                  0 <= i < 4 /\ hits w3 c pool usdc_address i = true
                  /\ forall j, 0 <= j < i -> misses w3 c pool usdc_address j = true)
    /\ (returns o = false -> exit_status o = 1).
Proof.
  unfold get_usdc_index, positions_to_check.
  change (map Z.of_nat (seq 0 config.MAX_COINS_CHECK)) with (first_positions 4).
  destruct (get_usdc_index_loop_spec w3 c pool usdc_address (first_positions 4))
    as (probed & rest & o & Hrun & Hps & Hend).
  rewrite Hrun. clear Hrun.
  assert (Hmiss_hit : forall i, misses w3 c pool usdc_address i = true ->
                                hits w3 c pool usdc_address i = true -> False).
  { intros i Hm Hh. apply hits_not_misses in Hh. congruence. }
  destruct Hend as [(before & i0 & Ho & Hp & Hall & Hhit)
                   | [(Ho & Hrest & Hall) | ((Hr & Hs) & before & j & Hp & Hall & Hnh & Hnm)]].
  - (* returned at position i0 *)
    subst probed o. apply first_positions_snoc in Hps as (Hb & Hi & Hlt).
    set (m := length before) in *. rewrite Hb in Hall.
    rewrite Forall_first_positions in Hall.
    exists (S m), (Ret i0). rewrite first_positions_S, <- Hb, <- Hi.
    split; [reflexivity |]. split; [lia |]. split; [intros j Hj; apply Hall; lia |].
    split.
    { right. replace (S m - 1)%nat with m by lia. rewrite <- Hi.
      apply hits_not_misses. exact Hhit. }
    split; [| discriminate].
    intros i. split.
    + intros E. injection E as <-. split; [lia |]. split; [exact Hhit |].
      intros j Hj. replace j with (Z.of_nat (Z.to_nat j)) by lia. apply Hall. lia.
    + intros (Hi4 & Hh & Hbefore). f_equal.
      destruct (Z.lt_trichotomy i0 i) as [Hlt' | [-> | Hgt]]; [| reflexivity |].
      * exfalso. apply (Hmiss_hit i0); [apply Hbefore; lia | exact Hhit].
      * exfalso. apply (Hmiss_hit i); [| exact Hh].
        replace i with (Z.of_nat (Z.to_nat i)) by lia. apply Hall. lia.
  - (* every position held another coin *)
    subst o rest. rewrite List.app_nil_r in Hps. subst probed.
    rewrite Forall_first_positions in Hall.
    exists 4%nat, (SysExit cannot_find_usdc_msg).
    split; [reflexivity |]. split; [lia |]. split; [intros j Hj; apply Hall; lia |].
    split; [left; reflexivity |]. split; [| reflexivity].
    intros i. split; [discriminate |].
    intros (Hi4 & Hh & _). exfalso. apply (Hmiss_hit i); [| exact Hh].
    replace i with (Z.of_nat (Z.to_nat i)) by lia. apply Hall. lia.
  - (* stopped at position j *)
    subst probed. apply first_positions_snoc in Hps as (Hb & Hj & Hlt).
    set (m := length before) in *. rewrite Hb in Hall.
    rewrite Forall_first_positions in Hall.
    exists (S m), o. rewrite first_positions_S, <- Hb, <- Hj.
    split; [reflexivity |]. split; [lia |]. split; [intros j' Hj'; apply Hall; lia |].
    split.
    { right. replace (S m - 1)%nat with m by lia. rewrite <- Hj. exact Hnm. }
    split; [| intros _; exact Hs].
    intros i. split.
    + intros E. subst o. discriminate Hr.
    + intros (Hi4 & Hh & Hbefore). exfalso.
      destruct (Z.lt_trichotomy j i) as [Hlt' | [-> | Hgt]].
      * specialize (Hbefore j ltac:(lia)). congruence.
      * congruence.
      * apply (Hmiss_hit i); [| exact Hh].
        replace i with (Z.of_nat (Z.to_nat i)) by lia. apply Hall. lia.
Qed.

(** C5: [get_usdc_index] probes the positions 0, 1, 2, 3 in this order and
    stops at the first whose read fails or when the bound 4 is reached; it
    returns the first position whose coin address equals the target in
    checksum form, and when there is none before the bound or before a
    failed read it ends the process (status 1) and returns no index.  Over
    the coins [TokenA, TokenB, USDC, TokenD] the index of USDC is 2; over
    [TokenA, TokenB] the resolution fails. *)
Theorem get_usdc_index_first_match :
  (forall (Chain : Type) (w3 : Fork Chain) (c : Chain) (pool usdc_address : string),
      exists (k : nat) (o : outcome Z),
        get_usdc_index w3 pool usdc_address c
        = (c, map (probe w3 c pool) (first_positions k), o)
        /\ (1 <= k <= 4)%nat
        /\ (forall j, (S j < k)%nat -> misses w3 c pool usdc_address (Z.of_nat j) = true)
        /\ (k = 4%nat \/ misses w3 c pool usdc_address (Z.of_nat (k - 1)) = false)
        /\ (forall i, o = Ret i <->
                      0 <= i < 4 /\ hits w3 c pool usdc_address i = true
                      /\ forall j, 0 <= j < i -> misses w3 c pool usdc_address j = true)
        /\ (returns o = false -> exit_status o = 1))
  /\ (forall c : toy.chain,
        get_usdc_index
          (toy.fork [toy.TokenA; toy.TokenB; config.USDC_ADDRESS; toy.TokenD] 1)
          config.POOL_ADDRESS config.USDC_ADDRESS c
        = (c, [Coins config.POOL_ADDRESS 0 (Ok toy.TokenA);
               Coins config.POOL_ADDRESS 1 (Ok toy.TokenB);
               Coins config.POOL_ADDRESS 2 (Ok config.USDC_ADDRESS)], Ret 2))
  /\ (forall c : toy.chain,
        get_usdc_index (toy.fork [toy.TokenA; toy.TokenB] 1)
          config.POOL_ADDRESS config.USDC_ADDRESS c
        = (c, [Coins config.POOL_ADDRESS 0 (Ok toy.TokenA);
               Coins config.POOL_ADDRESS 1 (Ok toy.TokenB);
               Coins config.POOL_ADDRESS 2 (Err ContractLogicError)],
           SysExit cannot_find_usdc_msg)).
Proof.
  split; [intros; apply get_usdc_index_spec |]. split; intros c; reflexivity.
Qed.

(** ** Argument parsing *)

Section Parsing.

Variable int_of_str : string -> option Z.

(** Once the parser is built, what [parser.parse_args] gives is decided by
    the settings in force. *)
Lemma parser_parse_args_built (argv : Argv) (env : gmap string string) :
  returns (default_burn_bps int_of_str env) = true ->
  match burn_bps_in_force int_of_str argv env with
  | Some bps =>
      exists ns, parser_parse_args int_of_str argv env = Ret ns
                 /\ burn_bps ns = bps
                 /\ impersonated_address ns = address_in_force argv env
                 /\ dry_run ns = opt_dry_run argv
  | None => exists msg, parser_parse_args int_of_str argv env = ParserError msg
  end.
Proof.
  unfold parser_parse_args, burn_bps_in_force, default_burn_bps, address_in_force.
  destruct (env !! config.ENV_BURN_BPS) as [text |].
  - destruct (int_of_str text) as [n |]; [intros _ | discriminate].
    destruct (opt_burn_bps argv) as [flag |].
    + destruct (int_of_str flag); eauto 6.
    + eauto 6.
  - intros _. destruct (opt_burn_bps argv) as [flag |].
    + destruct (int_of_str flag); eauto 6.
    + eauto 6.
Qed.

(** [parse_args] returns only a namespace with an address and a burn size in
    range, which is the one [parser.parse_args] built. *)
Lemma parse_args_ret (argv : Argv) (env : gmap string string) (args : Namespace) :
  parse_args int_of_str argv env = Ret args ->
  parser_parse_args int_of_str argv env = Ret args
  /\ truthy (impersonated_address args) = true
  /\ 1 <= burn_bps args <= 10000.
Proof.
  unfold parse_args.
  destruct (parser_parse_args int_of_str argv env) as [ns | | |]; try discriminate.
  destruct (truthy (impersonated_address ns)) eqn:Ha; cbn [negb]; [| discriminate].
  change config.MIN_BURN_BPS with 1. change config.MAX_BURN_BPS with 10000.
  destruct ((1 <=? burn_bps ns) && (burn_bps ns <=? 10000)) eqn:Hr; cbn [negb];
    [| discriminate].
  intros E. injection E as <-. apply andb_true_iff in Hr as [H1 H2].
  repeat split; [exact Ha | lia | lia].
Qed.

(** [parse_args] never ends by [sys.exit]. *)
Lemma parse_args_exit_status (argv : Argv) (env : gmap string string) :
  returns (parse_args int_of_str argv env) = false ->
  exit_status (parse_args int_of_str argv env) <> 0.
Proof.
  destruct (parse_args int_of_str argv env); cbn; intros; lia || discriminate.
Qed.

(** A missing address or a burn size out of range keeps [parse_args] from
    returning; with the parser built, the end is a usage error. *)
Lemma parse_args_rejects (argv : Argv) (env : gmap string string) :
  truthy (address_in_force argv env) = false
  \/ (exists n, burn_bps_in_force int_of_str argv env = Some n /\ (n < 1 \/ 10000 < n)) ->
  returns (parse_args int_of_str argv env) = false
  /\ (returns (default_burn_bps int_of_str env) = true ->
      exists msg, parse_args int_of_str argv env = ParserError msg).
Proof.
  intros Hbad. split.
  - destruct (parse_args int_of_str argv env) as [args | | |] eqn:E; try reflexivity.
    exfalso. apply parse_args_ret in E as (Hns & Ha & Hr).
    assert (Hb : returns (default_burn_bps int_of_str env) = true).
    { unfold parser_parse_args in Hns.
      destruct (default_burn_bps int_of_str env); [reflexivity | discriminate ..]. }
    pose proof (parser_parse_args_built argv env Hb) as Hbuilt.
    destruct (burn_bps_in_force int_of_str argv env) as [bps |].
    + destruct Hbuilt as (ns & Hns' & Hbps & Haddr & _).
      rewrite Hns in Hns'. injection Hns' as <-.
      destruct Hbad as [Hmiss | (n & Hn & Hout)].
      * rewrite Haddr in Ha. congruence.
      * injection Hn as ->. lia.
    + destruct Hbuilt as (msg & Hmsg). congruence.
  - intros Hb. pose proof (parser_parse_args_built argv env Hb) as Hbuilt.
    unfold parse_args.
    destruct (burn_bps_in_force int_of_str argv env) as [bps |].
    + destruct Hbuilt as (ns & -> & Hbps & Haddr & _).
      rewrite Haddr.
      destruct (truthy (address_in_force argv env)) eqn:Ha; cbn [negb]; [| eauto].
      destruct Hbad as [Hmiss | (n & Hn & Hout)]; [discriminate |].
      injection Hn as ->. rewrite Hbps.
      change config.MIN_BURN_BPS with 1. change config.MAX_BURN_BPS with 10000.
      destruct ((1 <=? n) && (n <=? 10000)) eqn:Hr; cbn [negb]; [| eauto].
      apply andb_true_iff in Hr as [H1 H2]. lia.
    + destruct Hbuilt as (msg & ->). eauto.
Qed.

End Parsing.

(** ** Rules for [spec] *)

Section Rules.

Context {Chain : Type}.

Lemma spec_ret {A} (a : A) (P : event -> Prop) (Q : A -> Prop) :
  Q a -> spec (Chain := Chain) (ret a) P Q.
Proof. intros H c. split; [constructor | exact H]. Qed.

Lemma spec_lift {A} (o : outcome A) (P : event -> Prop) (Q : A -> Prop) :
  (forall a, o = Ret a -> Q a) -> spec (Chain := Chain) (lift o) P Q.
Proof.
  intros H c. split; [constructor |]. cbn. destruct o; auto.
Qed.

Lemma spec_sys_exit {A} (msg : string) (P : event -> Prop) (Q : A -> Prop) :
  spec (Chain := Chain) (sys_exit msg) P Q.
Proof. intros c. split; [constructor | exact I]. Qed.

Lemma spec_emit (e : event) (P : event -> Prop) (Q : unit -> Prop) :
  P e -> Q tt -> spec (Chain := Chain) (emit e) P Q.
Proof. intros He Hq c. split; [repeat constructor; exact He | exact Hq]. Qed.

Lemma spec_bind {A B} (m : M Chain A) (k : A -> M Chain B)
    (P : event -> Prop) (Q : A -> Prop) (R : B -> Prop) :
  spec m P Q -> (forall a, Q a -> spec (k a) P R) -> spec (bind m k) P R.
Proof.
  intros Hm Hk c. specialize (Hm c). unfold bind.
  destruct (m c) as [[c1 l1] [a | msg | msg | e]]; cbn in Hm |- *;
    destruct Hm as [Hl Hq]; try (split; [exact Hl | exact I]).
  specialize (Hk a Hq c1). destruct (k a c1) as [[c2 l2] o]. cbn in Hk |- *.
  destruct Hk as [Hl2 Hr]. split; [apply Forall_app; split; assumption | exact Hr].
Qed.

Lemma spec_call {A} (f : Chain -> reply A) (ev : reply A -> event)
    (P : event -> Prop) (Q : A -> Prop) :
  (forall r, P (ev r)) -> (forall a, Q a) -> spec (call f ev) P Q.
Proof.
  intros Hp Hq c. unfold call, bind, view, unwrap.
  destruct (f c) as [a | e] eqn:E; cbn; rewrite ?E;
    (split; [repeat constructor; apply Hp | auto]).
Qed.

Lemma spec_weaken {A} (m : M Chain A) (P P' : event -> Prop) (Q Q' : A -> Prop) :
  (forall e, P e -> P' e) -> (forall a, Q a -> Q' a) -> spec m P Q -> spec m P' Q'.
Proof.
  intros Hp Hq H c. destruct (H c) as [Hl Ho]. split.
  - eapply Forall_impl; [exact Hl | exact Hp].
  - destruct (m c).2; auto.
Qed.

End Rules.

(** ** Laws of the monad *)

Section Laws.

Context {Chain : Type}.

Lemma bind_ret_l {A B} (a : A) (k : A -> M Chain B) (c : Chain) :
  bind (ret a) k c = k a c.
Proof.
  unfold bind, ret. destruct (k a c) as [[c' l] o]. reflexivity.
Qed.

Lemma bind_assoc {A B C} (m : M Chain A) (k : A -> M Chain B) (h : B -> M Chain C)
    (c : Chain) :
  bind (bind m k) h c = bind m (fun a => bind (k a) h) c.
Proof.
  unfold bind. destruct (m c) as [[c1 l1] [a | msg | msg | e]]; try reflexivity.
  destruct (k a c1) as [[c2 l2] [b | msg | msg | e]]; try reflexivity.
  destruct (h b c2) as [[c3 l3] o]. rewrite List.app_assoc. reflexivity.
Qed.

Lemma bind_ext {A B} (m : M Chain A) (k k' : A -> M Chain B) (c : Chain) :
  (forall a c1, k a c1 = k' a c1) -> bind m k c = bind m k' c.
Proof.
  intros H. unfold bind. destruct (m c) as [[c1 l1] [a | msg | msg | e]]; try reflexivity.
  rewrite H. reflexivity.
Qed.

(** A computation that has ended does not go on. *)
Lemma bind_lift_stop {A B} (o : outcome A) (k : A -> M Chain B) (c : Chain) :
  returns o = false ->
  exists o' : outcome B, bind (lift o) k c = (c, [], o')
                         /\ returns o' = false /\ exit_status o' = exit_status o.
Proof.
  unfold bind, lift. destruct o; [discriminate | ..]; intros _; eexists; eauto.
Qed.

End Laws.

(** ** The run as a whole *)

Section Run.

Variable int_of_str : string -> option Z.
Context {Chain : Type}.
Variable w3 : Fork Chain.

(** [main] is [setup] followed by [withdrawal]. *)
Lemma main_split (argv : Argv) (environ dotenv : gmap string string) (c : Chain) :
  main int_of_str w3 argv environ dotenv c
  = bind (setup int_of_str w3 argv environ dotenv) (withdrawal w3) c.
Proof.
  unfold main, setup. cbv zeta.
  do 6 (rewrite bind_assoc; apply bind_ext; intros ? ?).
  match goal with
  | |- context [match ?accounts with [] => _ | _ :: _ => _ end] =>
      destruct accounts as [| account others]; [reflexivity |]
  end.
  do 4 (rewrite bind_assoc; apply bind_ext; intros ? ?).
  rewrite bind_ret_l. reflexivity.
Qed.

Lemma not_late_plan_ok (e : event) : is_late e = false -> event_plan_ok e.
Proof. destruct e as [| | | | | | | | | | []]; cbn; intros; (exact I || discriminate). Qed.

Lemma not_late_not_sizing (e : event) : is_late e = false -> is_sizing e = false.
Proof. destruct e as [| | | | | | | | | | []]; cbn; intros; (reflexivity || discriminate). Qed.

Lemma spec_to_checksum (address : string) (P : event -> Prop) :
  spec (to_checksum w3 address) P (fun a => to_checksum_address w3 address = Some a).
Proof.
  intros c. unfold to_checksum.
  destruct (to_checksum_address w3 address); split; try constructor; reflexivity.
Qed.

Lemma spec_get_usdc_index (pool usdc_address : string) :
  spec (get_usdc_index w3 pool usdc_address) (fun e => is_late e = false) (fun _ => True).
Proof.
  intros c.
  destruct (get_usdc_index_spec w3 c pool usdc_address) as (k & o & -> & _).
  cbn. split; [| destruct o; exact I].
  apply List.Forall_map. apply List.Forall_forall. intros; reflexivity.
Qed.

Lemma spec_impersonate_and_fund (impersonated funding_account : string) :
  spec (impersonate_and_fund w3 impersonated funding_account)
       (fun e => is_late e = false) (fun _ => True).
Proof.
  intros c. unfold impersonate_and_fund, bind, emit, sys_exit, lift.
  destruct (anvil_impersonateAccount w3 c impersonated) as [c1 error].
  destruct (truthy error).
  - cbn. split; [repeat constructor | exact I].
  - destruct (send_transaction w3 c1 funding_account impersonated fund_wei);
      cbn; split; repeat constructor.
Qed.

(** Before the snapshot a run reads no balance and sizes nothing. *)
Lemma spec_setup (argv : Argv) (environ dotenv : gmap string string) :
  spec (setup int_of_str w3 argv environ dotenv)
       (fun e => is_late e = false) (setup_done int_of_str w3 argv environ dotenv).
Proof.
  unfold setup. cbv zeta.
  apply spec_bind with (Q := fun args =>
    parse_args int_of_str argv (load_dotenv environ dotenv) = Ret args).
  { apply spec_lift. auto. }
  intros args Hargs.
  apply spec_bind with (Q := fun _ => True).
  { unfold get_web3. apply spec_bind with (Q := fun _ => True).
    - apply spec_emit; [reflexivity | exact I].
    - intros _ _. destruct (negb _); [apply spec_sys_exit | apply spec_ret; exact I]. }
  intros _ _.
  apply spec_bind with (Q := fun _ => True).
  { eapply spec_weaken; [| | apply (spec_to_checksum _ (fun e => is_late e = false))];
      cbn; auto. }
  intros impersonated _.
  eapply spec_bind; [apply spec_to_checksum |]. intros pool_address Hpool.
  eapply spec_bind; [apply spec_to_checksum |]. intros usdc_address Husdc.
  apply spec_bind with (Q := fun _ => True).
  { unfold eth_accounts. apply spec_bind with (Q := fun _ => True).
    - apply spec_emit; [reflexivity | exact I].
    - intros _ _. apply spec_ret. exact I. }
  intros [| account others] _; [apply spec_sys_exit |].
  apply spec_bind with (Q := fun _ => True).
  { unfold eth_accounts. apply spec_bind with (Q := fun _ => True).
    - apply spec_emit; [reflexivity | exact I].
    - intros _ _. apply spec_ret. exact I. }
  intros accounts _.
  apply spec_bind with (Q := fun _ => True).
  { destruct accounts; [apply spec_lift; discriminate | apply spec_ret; exact I]. }
  intros funding_account _.
  eapply spec_bind; [apply spec_impersonate_and_fund |]. intros _ _.
  eapply spec_bind; [apply spec_get_usdc_index |]. intros usdc_index _.
  apply spec_ret. repeat split; assumption.
Qed.

(** [read_balances] reads the pool-share balance first, changes nothing,
    and ends by returning the snapshot or by the exception of a read. *)
Lemma read_balances_spec (pool usdc address : string) (c : Chain) :
  exists (l : list event) (o : outcome Balances),
    read_balances w3 pool usdc address c
    = (c, BalanceOf pool address (balanceOf w3 c pool address) :: l, o)
    /\ Forall (fun e => is_sizing e = false) l
    /\ (returns o = false -> exists e, o = Raise e)
    /\ (forall b, o = Ret b ->
                  balanceOf w3 c pool address = Ok (Z.to_N (lp_balance b))
                  /\ 0 <= lp_balance b).
Proof.
  unfold read_balances, call, bind, view, unwrap, ret, raise, lift.
  destruct (balanceOf w3 c pool address) as [lp | e1];
    [| eexists _, _; split; [reflexivity |]; repeat split;
       [constructor | eauto | discriminate | discriminate]].
  destruct (balanceOf w3 c usdc address) as [us | e2];
    [| eexists _, _; split; [reflexivity |]; repeat split;
       [repeat constructor | eauto | discriminate | discriminate]].
  destruct (decimals w3 c pool) as [d1 | e3];
    [| eexists _, _; split; [reflexivity |]; repeat split;
       [repeat constructor | eauto | discriminate | discriminate]].
  destruct (decimals w3 c usdc) as [d2 | e4];
    [| eexists _, _; split; [reflexivity |]; repeat split;
       [repeat constructor | eauto | discriminate | discriminate]].
  destruct (symbol w3 c usdc) as [sy | e5];
    [| eexists _, _; split; [reflexivity |]; repeat split;
       [repeat constructor | eauto | discriminate | discriminate]].
  eexists _, _. split; [reflexivity |]. split; [repeat constructor |].
  split; [discriminate |]. intros b E. injection E as <-. cbn.
  rewrite N2Z.id. split; [reflexivity | lia].
Qed.

(** The plan of lines 266-268 from a snapshot with a positive share
    balance, basis points that [parse_args] accepts and an estimate that is
    not negative. *)
Lemma sizing_plan_ok (lp bps expected burn : Z) :
  0 < lp -> 1 <= bps <= 10000 -> 0 <= expected ->
  calc_burn_amount lp bps = Ret burn ->
  plan_ok lp burn expected (min_received_of expected).
Proof.
  intros Hlp Hbps He Hburn. apply calc_burn_amount_ret in Hburn as [-> Hnz].
  unfold plan_ok, min_received_of. rewrite slippage_bps_eq.
  pose proof (floor_10000 (lp * bps)) as Hf.
  pose proof (Z.div_mod (expected * 99) 100 ltac:(lia)) as Hd.
  pose proof (Z.mod_pos_bound (expected * 99) 100 ltac:(lia)) as Hm.
  assert (0 <= (lp * bps) `div` 10000) by (apply Z.div_pos; nia).
  repeat split; nia.
Qed.

(** Every plan [withdrawal] reports or submits is sound. *)
Lemma spec_withdrawal (ctx : context) :
  1 <= burn_bps (ctx_args ctx) <= 10000 ->
  spec (withdrawal w3 ctx) event_plan_ok (fun _ => True).
Proof.
  intros Hbps. unfold withdrawal. cbv zeta.
  apply spec_bind with (Q := fun b => 0 <= lp_balance b).
  { intros c.
    destruct (read_balances_spec (ctx_pool_address ctx) (ctx_usdc_address ctx)
                (ctx_impersonated ctx) c) as (l & o & -> & Hl & _ & Hb).
    cbn. split.
    - constructor; [exact I |]. eapply Forall_impl; [exact Hl |].
      intros e He. destruct e as [| | | | | | | | | | []]; cbn in *; (exact I || discriminate).
    - destruct o; try exact I. apply (Hb a). reflexivity. }
  intros b Hb. destruct (Z.eqb_spec (lp_balance b) 0) as [Hz | Hnz]; [apply spec_sys_exit |].
  apply spec_bind with (Q := fun burn =>
    calc_burn_amount (lp_balance b) (burn_bps (ctx_args ctx)) = Ret burn).
  { apply spec_lift. auto. }
  intros burn Hburn.
  apply spec_bind with (Q := fun expected => 0 <= expected).
  { unfold estimate_usdc. apply spec_bind with (Q := fun _ => True).
    - apply spec_call; [intros; exact I | auto].
    - intros expected _. destruct (Z.of_N expected =? 0);
        [apply spec_sys_exit | apply spec_ret; lia]. }
  intros expected Hexp.
  pose proof (sizing_plan_ok (lp_balance b) (burn_bps (ctx_args ctx)) expected burn
                ltac:(lia) Hbps Hexp Hburn) as Hplan.
  destruct (dry_run (ctx_args ctx)).
  - apply spec_emit; [exact Hplan | exact I].
  - apply spec_bind with (Q := fun _ => True).
    { intros c. unfold withdraw_one_coin, bind, sys_exit, lift, ret.
      destruct (remove_liquidity_one_coin w3 c _ _ _ _ _ _) as [[[c1 tx] status] | e];
        [destruct (negb (status =? 1)) |]; cbn;
        (split; [repeat constructor; apply Hplan | exact I]). }
    intros tx _.
    apply spec_bind with (Q := fun _ => True).
    { intros c.
      destruct (read_balances_spec (ctx_pool_address ctx) (ctx_usdc_address ctx)
                  (ctx_impersonated ctx) c) as (l & o & -> & Hl & _ & _).
      cbn. split; [| destruct o; exact I].
      constructor; [exact I |]. eapply Forall_impl; [exact Hl |].
      intros e He. destruct e as [| | | | | | | | | | []]; cbn in *; (exact I || discriminate). }
    intros after _. apply spec_emit; [exact Hplan | exact I].
Qed.

(** Every plan a run reports or submits is sound, whatever the invocation
    and the fork. *)
Lemma main_plan_invariant (argv : Argv) (environ dotenv : gmap string string) (c : Chain) :
  Forall event_plan_ok (main int_of_str w3 argv environ dotenv c).1.2.
Proof.
  rewrite main_split.
  apply (spec_bind (setup int_of_str w3 argv environ dotenv) (withdrawal w3)
           event_plan_ok (setup_done int_of_str w3 argv environ dotenv) (fun _ => True)).
  - eapply spec_weaken; [| | apply spec_setup]; [apply not_late_plan_ok | auto].
  - intros ctx (Hargs & _). apply spec_withdrawal.
    apply parse_args_ret in Hargs as (_ & _ & Hr). exact Hr.
Qed.

Lemma not_late_not_withdrawal (e : event) : is_late e = false -> is_withdrawal e = false.
Proof. destruct e as [| | | | | | | | | | []]; cbn; intros; (reflexivity || discriminate). Qed.

Lemma first_balance_read_app (l1 l2 : list event) :
  Forall (fun e => is_late e = false) l1 ->
  first_balance_read (l1 ++ l2) = first_balance_read l2.
Proof.
  induction 1 as [| e l1 He _ IH]; [reflexivity |].
  cbn. destruct e; try exact IH. discriminate He.
Qed.

Lemma first_balance_read_none (l : list event) :
  Forall (fun e => is_late e = false) l -> first_balance_read l = None.
Proof.
  intros H. rewrite <- (List.app_nil_r l). rewrite first_balance_read_app by exact H.
  reflexivity.
Qed.

(** The first thing [withdrawal] does is to read the pool-share balance of
    the holder. *)
Lemma withdrawal_first_read (ctx : context) (c : Chain) :
  exists l,
    (withdrawal w3 ctx c).1.2
    = BalanceOf (ctx_pool_address ctx) (ctx_impersonated ctx)
        (balanceOf w3 c (ctx_pool_address ctx) (ctx_impersonated ctx)) :: l.
Proof.
  unfold withdrawal, bind. cbv zeta.
  destruct (read_balances_spec (ctx_pool_address ctx) (ctx_usdc_address ctx)
              (ctx_impersonated ctx) c) as (l & o & -> & _).
  destruct o as [b | | |]; try (eexists; reflexivity).
  match goal with |- context [?k c] =>
    match type of (k c) with (_ * _ * outcome unit)%type =>
      destruct (k c) as [[c2 l2] o2] end end.
  eexists. reflexivity.
Qed.

(** With a pool-share balance of zero [withdrawal] stops at line 264, or
    earlier on a read that raises: the reads of the snapshot are all it
    does. *)
Lemma withdrawal_zero_balance (ctx : context) (c : Chain) :
  balanceOf w3 c (ctx_pool_address ctx) (ctx_impersonated ctx) = Ok 0%N ->
  exists (l : list event) (o : outcome unit),
    withdrawal w3 ctx c
    = (c, BalanceOf (ctx_pool_address ctx) (ctx_impersonated ctx) (Ok 0%N) :: l, o)
    /\ Forall (fun e => is_sizing e = false) l
    /\ (o = SysExit (lp_balance_zero_msg (ctx_impersonated ctx))
        \/ exists e, o = Raise e).
Proof.
  intros Hzero. unfold withdrawal, bind. cbv zeta.
  destruct (read_balances_spec (ctx_pool_address ctx) (ctx_usdc_address ctx)
              (ctx_impersonated ctx) c) as (l & o & -> & Hl & Hfail & Hb).
  rewrite Hzero in *.
  destruct o as [b | msg | msg | e].
  - destruct (Hb b eq_refl) as [Hlp Hpos].
    assert (Hb0 : lp_balance b = 0) by (injection Hlp as Hlp; lia).
    rewrite Hb0. cbn. rewrite List.app_nil_r.
    eexists _, _. split; [reflexivity |]. split; [exact Hl | left; reflexivity].
  - destruct (Hfail eq_refl) as [e He]. discriminate He.
  - destruct (Hfail eq_refl) as [e He]. discriminate He.
  - eexists _, _. split; [reflexivity |]. split; [exact Hl | right; eauto].
Qed.

(** A dry run that completes: the snapshot, the estimate and the report,
    on a chain that stays as it was. *)
Lemma withdrawal_dry_run (ctx : context) (c c' : Chain) (l : list event) :
  dry_run (ctx_args ctx) = true ->
  withdrawal w3 ctx c = (c', l, Ret tt) ->
  c' = c
  /\ exists (b : Balances) (burn expected : Z) (reads : list event) (r : reply N),
       read_balances w3 (ctx_pool_address ctx) (ctx_usdc_address ctx)
         (ctx_impersonated ctx) c = (c, reads, Ret b)
       /\ l = reads
              ++ [CalcWithdrawOneCoin (ctx_pool_address ctx) burn (ctx_usdc_index ctx) r;
                  Print (DryRun (rpc_url (ctx_args ctx)) (ctx_pool_address ctx)
                           (ctx_impersonated ctx) b burn (ctx_usdc_index ctx)
                           expected (min_received_of expected))].
Proof.
  intros Hdry. unfold withdrawal, bind. cbv zeta. rewrite Hdry.
  destruct (read_balances_spec (ctx_pool_address ctx) (ctx_usdc_address ctx)
              (ctx_impersonated ctx) c) as (reads & o & Hread & _).
  rewrite Hread.
  destruct o as [b | | |]; try discriminate.
  destruct (lp_balance b =? 0); [discriminate |].
  unfold lift at 1.
  destruct (calc_burn_amount (lp_balance b) (burn_bps (ctx_args ctx))) as [burn | | |];
    try discriminate.
  unfold estimate_usdc, call, bind, view, unwrap, ret, raise, sys_exit, lift, emit.
  destruct (calc_withdraw_one_coin w3 c (ctx_pool_address ctx) burn (ctx_usdc_index ctx))
    as [expected | e] eqn:Hest; [| discriminate].
  destruct (Z.of_N expected =? 0); [discriminate |].
  cbn. intros E. injection E as <- <-. split; [reflexivity |].
  eexists b, burn, (Z.of_N expected), _, (Ok expected). split; reflexivity.
Qed.

Lemma parser_parse_args_dry_run (argv : Argv) (env : gmap string string) (ns : Namespace) :
  parser_parse_args int_of_str argv env = Ret ns -> dry_run ns = opt_dry_run argv.
Proof.
  unfold parser_parse_args.
  destruct (default_burn_bps int_of_str env); try discriminate.
  destruct (match opt_burn_bps argv with Some t => int_of_str t | None => Some a end);
    [| discriminate].
  intros E. injection E as <-. reflexivity.
Qed.

Lemma not_sizing_not_withdrawal (e : event) : is_sizing e = false -> is_withdrawal e = false.
Proof. destruct e; cbn; intros; (reflexivity || discriminate). Qed.

(** When [parse_args] does not return, the run ends there: nothing was
    asked of the node and the chain is as it was. *)
Lemma main_stops_at_parse_args (argv : Argv) (environ dotenv : gmap string string)
    (c : Chain) :
  returns (parse_args int_of_str argv (load_dotenv environ dotenv)) = false ->
  exists o : outcome unit,
    main int_of_str w3 argv environ dotenv c = (c, [], o)
    /\ returns o = false
    /\ exit_status o = exit_status (parse_args int_of_str argv (load_dotenv environ dotenv))
    /\ forall msg, parse_args int_of_str argv (load_dotenv environ dotenv) = ParserError msg ->
                   o = ParserError msg.
Proof.
  intros Hstop. unfold main. cbv zeta. unfold bind, lift.
  destruct (parse_args int_of_str argv (load_dotenv environ dotenv)) as [args | m | m | e];
    [discriminate | ..]; eexists; (split; [reflexivity |]); repeat split;
    intros msg E; (discriminate E || (injection E as ->; reflexivity)).
Qed.

(** C6: in a run whose first balance read, the holder's pool-share balance
    of the snapshot, is zero, the program ends with status 1 without
    returning: it exits with the message of line 264, or a later read of the
    snapshot raises.  Its transcript holds no sizing step: no estimate, no
    withdrawal, no report of a plan; and the exit is not the one of
    [calc_burn_amount]. *)
Theorem zero_lp_balance_aborts (argv : Argv) (environ dotenv : gmap string string)
    (c : Chain) (token holder : string) :
  first_balance_read (main int_of_str w3 argv environ dotenv c).1.2
  = Some (token, holder, Ok 0%N) ->
  returns (main int_of_str w3 argv environ dotenv c).2 = false
  /\ exit_status (main int_of_str w3 argv environ dotenv c).2 = 1
  /\ Forall (fun e => is_sizing e = false) (main int_of_str w3 argv environ dotenv c).1.2
  /\ ((main int_of_str w3 argv environ dotenv c).2 = SysExit (lp_balance_zero_msg holder)
      \/ exists e, (main int_of_str w3 argv environ dotenv c).2 = Raise e).
Proof.
  rewrite main_split. unfold bind.
  pose proof (spec_setup argv environ dotenv c) as [Hl1 _].
  destruct (setup int_of_str w3 argv environ dotenv c) as [[c1 l1] o1]. cbn in Hl1.
  destruct o1 as [ctx | msg | msg | e];
    try (cbn; intros H; rewrite first_balance_read_none in H by exact Hl1; discriminate H).
  destruct (withdrawal_first_read ctx c1) as [l2 Hfirst].
  pose proof (withdrawal_zero_balance ctx c1) as Hzero.
  destruct (withdrawal w3 ctx c1) as [[c2 l2'] o2]. cbn in Hfirst |- *. subst l2'.
  rewrite first_balance_read_app by exact Hl1. cbn. intros E. injection E as _ <- Hbal.
  destruct (Hzero Hbal) as (l & o & E & Hl & Ho). clear Hzero. simplify_eq.
  assert (Hall : Forall (fun e => is_sizing e = false)
                   (l1 ++ BalanceOf (ctx_pool_address ctx) (ctx_impersonated ctx)
                            (balanceOf w3 c1 (ctx_pool_address ctx) (ctx_impersonated ctx))
                          :: l)).
  { apply Forall_app. split.
    - eapply Forall_impl; [exact Hl1 | apply not_late_not_sizing].
    - constructor; [reflexivity | exact Hl]. }
  destruct Ho as [-> | [e ->]]; repeat split; eauto.
Qed.

(** With a missing impersonated address, or a burn size in force that lies
    outside [1, 10000], the run ends with a status that is not zero before
    anything is asked of the node, so that no transaction is attempted; and
    when the BURN_BPS text of the environment, if set, is an integer, the
    end is the usage error that [parse_args] reports, with status 2. *)
Theorem usage_error_before_network (argv : Argv) (environ dotenv : gmap string string)
    (c : Chain) :
  truthy (address_in_force argv (load_dotenv environ dotenv)) = false
  \/ (exists n, burn_bps_in_force int_of_str argv (load_dotenv environ dotenv) = Some n
                /\ (n < 1 \/ 10000 < n)) ->
  exists o : outcome unit,
    main int_of_str w3 argv environ dotenv c = (c, [], o)
    /\ returns o = false
    /\ exit_status o <> 0
    /\ (returns (default_burn_bps int_of_str (load_dotenv environ dotenv)) = true ->
        exit_status o = 2
        /\ exists msg, o = ParserError msg
                       /\ parse_args int_of_str argv (load_dotenv environ dotenv)
                          = ParserError msg).
Proof.
  intros Hbad.
  destruct (parse_args_rejects int_of_str argv (load_dotenv environ dotenv) Hbad)
    as [Hstop Husage].
  destruct (main_stops_at_parse_args argv environ dotenv c Hstop) as (o & Hrun & Hr & Hs & Hp).
  exists o. split; [exact Hrun |]. split; [exact Hr |]. split.
  - rewrite Hs. apply parse_args_exit_status. exact Hstop.
  - intros Hbuilt. destruct (Husage Hbuilt) as [msg Hmsg].
    rewrite (Hp msg Hmsg). split; [reflexivity | eauto].
Qed.

(** C8: a run with the dry-run flag that completes ends on the dry-run
    report; the snapshot [b] the report carries was read by [reads], and
    reading the balances again from the chain the run leaves gives the same
    replies and the same snapshot.  The transcript holds no withdrawal: the
    state-changing call on the pool is never made. *)
Theorem dry_run_leaves_balances (argv : Argv) (environ dotenv : gmap string string)
    (c c' : Chain) (l : list event) :
  opt_dry_run argv = true ->
  main int_of_str w3 argv environ dotenv c = (c', l, Ret tt) ->
  exists (rpc pool holder usdc : string) (b : Balances) (burn idx expected : Z)
         (before reads : list event) (r : reply N),
    to_checksum_address w3 config.USDC_ADDRESS = Some usdc
    /\ l = before ++ reads
             ++ [CalcWithdrawOneCoin pool burn idx r;
                 Print (DryRun rpc pool holder b burn idx expected
                          (min_received_of expected))]
    /\ Forall (fun e => is_late e = false) before
    /\ read_balances w3 pool usdc holder c' = (c', reads, Ret b)
    /\ Forall (fun e => is_withdrawal e = false) l.
Proof.
  intros Hflag. rewrite main_split. unfold bind.
  pose proof (spec_setup argv environ dotenv c) as [Hl1 Hdone].
  destruct (setup int_of_str w3 argv environ dotenv c) as [[c1 l1] o1]. cbn in Hl1, Hdone.
  destruct o1 as [ctx | | |]; try discriminate.
  destruct (withdrawal w3 ctx c1) as [[c2 l2] o2] eqn:Hw.
  intros E. injection E as -> <- ->.
  destruct Hdone as (Hargs & _ & Husdc).
  apply parse_args_ret in Hargs as (Hns & _ & _).
  apply parser_parse_args_dry_run in Hns. rewrite Hflag in Hns.
  destruct (withdrawal_dry_run ctx c1 c' l2 Hns Hw)
    as (-> & b & burn & expected & reads & r & Hread & ->).
  exists (rpc_url (ctx_args ctx)), (ctx_pool_address ctx), (ctx_impersonated ctx),
    (ctx_usdc_address ctx), b, burn, (ctx_usdc_index ctx), expected, l1, reads, r.
  split; [exact Husdc |]. split; [reflexivity |]. split; [exact Hl1 |].
  split; [exact Hread |].
  apply Forall_app. split.
  - eapply Forall_impl; [exact Hl1 | apply not_late_not_withdrawal].
  - apply Forall_app. split; [| repeat constructor].
    destruct (read_balances_spec (ctx_pool_address ctx) (ctx_usdc_address ctx)
                (ctx_impersonated ctx) c1) as (tl & o & E & Htl & _).
    rewrite Hread in E. injection E as -> _.
    constructor; [reflexivity |].
    eapply Forall_impl; [exact Htl | apply not_sizing_not_withdrawal].
Qed.

(** C9: with no [--burn-bps] option and no BURN_BPS variable, the namespace
    that parsing builds has [burn_bps = 100]; 100 lies in the accepted
    range, so [parse_args] returns that namespace as soon as an address is
    given, and a missing address is all it can object to. *)
Theorem default_burn_bps_is_100 (argv : Argv) (env : gmap string string) :
  opt_burn_bps argv = None ->
  env !! config.ENV_BURN_BPS = None ->
  (exists ns, parser_parse_args int_of_str argv env = Ret ns /\ burn_bps ns = 100)
  /\ config.MIN_BURN_BPS <= 100 <= config.MAX_BURN_BPS
  /\ (forall args, parse_args int_of_str argv env = Ret args -> burn_bps args = 100)
  /\ (truthy (address_in_force argv env) = true ->
      exists args, parse_args int_of_str argv env = Ret args /\ burn_bps args = 100)
  /\ (truthy (address_in_force argv env) = false ->
      exists msg, parse_args int_of_str argv env = ParserError msg).
Proof.
  intros Hflag Henv.
  assert (Hb : returns (default_burn_bps int_of_str env) = true).
  { unfold default_burn_bps. rewrite Henv. reflexivity. }
  pose proof (parser_parse_args_built int_of_str argv env Hb) as Hbuilt.
  unfold burn_bps_in_force in Hbuilt. rewrite Hflag, Henv in Hbuilt.
  destruct Hbuilt as (ns & Hns & Hbps & Haddr & _).
  split; [eauto |]. split; [vm_compute; split; discriminate |]. split.
  - intros args Hargs. apply parse_args_ret in Hargs as (Hns' & _).
    rewrite Hns in Hns'. injection Hns' as <-. exact Hbps.
  - unfold parse_args. rewrite Hns, Haddr, Hbps. split; intros ->; cbn; eauto.
Qed.

(** No guard stands between an estimate of one unit and the withdrawal:
    outside dry-run mode the pool is asked to pay out with a floor of 0. *)
Lemma unit_estimate_is_submitted (ctx : context) (c : Chain) (reads : list event)
    (b : Balances) (burn : Z) :
  dry_run (ctx_args ctx) = false ->
  read_balances w3 (ctx_pool_address ctx) (ctx_usdc_address ctx) (ctx_impersonated ctx) c
  = (c, reads, Ret b) ->
  lp_balance b <> 0 ->
  calc_burn_amount (lp_balance b) (burn_bps (ctx_args ctx)) = Ret burn ->
  calc_withdraw_one_coin w3 c (ctx_pool_address ctx) burn (ctx_usdc_index ctx) = Ok 1%N ->
  exists (r : reply (string * Z)) (rest : list event),
    (withdrawal w3 ctx c).1.2
    = reads
        ++ CalcWithdrawOneCoin (ctx_pool_address ctx) burn (ctx_usdc_index ctx) (Ok 1%N)
        :: RemoveLiquidityOneCoin (ctx_pool_address ctx) burn (ctx_usdc_index ctx) 0
             (ctx_impersonated ctx) (ctx_impersonated ctx) r
        :: rest.
Proof.
  intros Hdry Hread Hlp Hburn Hest. unfold withdrawal, bind. cbv zeta.
  rewrite Hread, Hdry. destruct (Z.eqb_spec (lp_balance b) 0) as [E | _]; [contradiction |].
  unfold lift at 1. rewrite Hburn.
  unfold estimate_usdc, call, bind, view, unwrap, ret. rewrite Hest. cbn.
  change (min_received_of 1) with 0.
  unfold withdraw_one_coin, bind.
  destruct (remove_liquidity_one_coin w3 c (ctx_pool_address ctx) burn (ctx_usdc_index ctx)
              0 (ctx_impersonated ctx) (ctx_impersonated ctx)) as [[[c1 tx] status] | e].
  - destruct (negb (status =? 1)).
    + cbn. eexists _, _. reflexivity.
    + unfold ret. cbn.
      destruct (read_balances w3 (ctx_pool_address ctx) (ctx_usdc_address ctx)
                  (ctx_impersonated ctx) c1) as [[c2 l2] [after | | |]];
        cbn; eexists _, _; reflexivity.
  - cbn. eexists _, _. reflexivity.
Qed.

End Run.

(** ** The plan invariant *)

(** C4: a plan built from a positive share balance, basis points in
    [1, 10000] and an estimate that is not negative burns a positive amount
    that is at most the share balance, and asks for at most the estimate. *)
Theorem withdrawal_plan_invariant (share_balance burn_bps expected_output burn_amount : Z) :
  0 < share_balance -> 1 <= burn_bps <= 10000 -> 0 <= expected_output ->
  calc_burn_amount share_balance burn_bps = Ret burn_amount ->
  0 < burn_amount <= share_balance
  /\ min_received_of expected_output <= expected_output.
Proof.
  intros Hlp Hbps He Hburn.
  exact (sizing_plan_ok share_balance burn_bps expected_output burn_amount Hlp Hbps He Hburn).
Qed.

Lemma withdrawal_plan_invariant_witness :
  0 < 10000 <= 1000000 /\ min_received_of 9850 <= 9850.
Proof.
  apply (withdrawal_plan_invariant 1000000 100 9850 10000);
    [lia | lia | lia | reflexivity].
Defined.

(** ** Runs on the small fork *)

Lemma zero_lp_balance_aborts_witness :
  returns (main toy.int_of_str toy.curve (toy.argv false) ∅ ∅ toy.empty_handed).2 = false
  /\ exit_status (main toy.int_of_str toy.curve (toy.argv false) ∅ ∅ toy.empty_handed).2 = 1
  /\ Forall (fun e => is_sizing e = false)
       (main toy.int_of_str toy.curve (toy.argv false) ∅ ∅ toy.empty_handed).1.2
  /\ ((main toy.int_of_str toy.curve (toy.argv false) ∅ ∅ toy.empty_handed).2
      = SysExit (lp_balance_zero_msg toy.holder)
      \/ exists e, (main toy.int_of_str toy.curve (toy.argv false) ∅ ∅ toy.empty_handed).2
                   = Raise e).
Proof.
  apply (zero_lp_balance_aborts toy.int_of_str toy.curve (toy.argv false) ∅ ∅
           toy.empty_handed config.POOL_ADDRESS toy.holder).
  reflexivity.
Defined.

(** C7: a missing impersonated address must end in a usage error.  With no
    address given and a BURN_BPS variable that is no integer it does not:
    line 57 converts the variable with a bare [int] while the parser is
    built, so [parse_args] raises ValueError before it reaches its checks,
    and the run ends with status 1 as an unexpected error.  (The same text
    given to [--burn-bps] goes through [type=int] and is a usage error.)
    Nothing was asked of the node. *)
Theorem malformed_burn_bps_is_no_usage_error :
  truthy (address_in_force toy.bare (load_dotenv toy.garbled ∅)) = false
  /\ parse_args toy.int_of_str toy.bare (load_dotenv toy.garbled ∅)
     = Raise (ValueError "invalid literal for int() with base 10: 'abc'")
  /\ main toy.int_of_str toy.curve toy.bare toy.garbled ∅ toy.funded
     = (toy.funded, [], Raise (ValueError "invalid literal for int() with base 10: 'abc'"))
  /\ ~ (exists msg, parse_args toy.int_of_str toy.bare (load_dotenv toy.garbled ∅)
                    = ParserError msg)
  /\ exit_status (parse_args toy.int_of_str toy.bare (load_dotenv toy.garbled ∅)) = 1
  /\ parse_args toy.int_of_str toy.malformed_option (load_dotenv ∅ ∅)
     = ParserError "argument --burn-bps: invalid int value".
Proof.
  assert (E : parse_args toy.int_of_str toy.bare (load_dotenv toy.garbled ∅)
              = Raise (ValueError "invalid literal for int() with base 10: 'abc'"))
    by (vm_compute; reflexivity).
  split; [vm_compute; reflexivity |]. split; [exact E |].
  split; [vm_compute; reflexivity |].
  split; [intros [msg H]; rewrite E in H; discriminate H |].
  split; [rewrite E; reflexivity | vm_compute; reflexivity].
Qed.

Lemma usage_error_before_network_witness :
  exists o : outcome unit,
    main toy.int_of_str toy.curve toy.bare ∅ ∅ toy.funded = (toy.funded, [], o)
    /\ returns o = false
    /\ exit_status o <> 0
    /\ (returns (default_burn_bps toy.int_of_str (load_dotenv ∅ ∅)) = true ->
        exit_status o = 2
        /\ exists msg, o = ParserError msg
                       /\ parse_args toy.int_of_str toy.bare (load_dotenv ∅ ∅)
                          = ParserError msg).
Proof.
  apply (usage_error_before_network toy.int_of_str toy.curve toy.bare ∅ ∅ toy.funded).
  left. vm_compute. reflexivity.
Defined.

Lemma dry_run_leaves_balances_witness :
  exists (rpc pool holder usdc : string) (b : Balances) (burn idx expected : Z)
         (before reads : list event) (r : reply N),
    to_checksum_address toy.curve config.USDC_ADDRESS = Some usdc
    /\ (main toy.int_of_str toy.curve (toy.argv true) ∅ ∅ toy.funded).1.2
       = before ++ reads
           ++ [CalcWithdrawOneCoin pool burn idx r;
               Print (DryRun rpc pool holder b burn idx expected
                        (min_received_of expected))]
    /\ Forall (fun e => is_late e = false) before
    /\ read_balances toy.curve pool usdc holder
         (main toy.int_of_str toy.curve (toy.argv true) ∅ ∅ toy.funded).1.1
       = ((main toy.int_of_str toy.curve (toy.argv true) ∅ ∅ toy.funded).1.1, reads, Ret b)
    /\ Forall (fun e => is_withdrawal e = false)
         (main toy.int_of_str toy.curve (toy.argv true) ∅ ∅ toy.funded).1.2.
Proof.
  apply (dry_run_leaves_balances toy.int_of_str toy.curve (toy.argv true) ∅ ∅ toy.funded).
  - reflexivity.
  - vm_compute. reflexivity.
Defined.

Lemma default_burn_bps_is_100_witness :
  (exists ns, parser_parse_args toy.int_of_str (toy.argv false) ∅ = Ret ns
              /\ burn_bps ns = 100)
  /\ config.MIN_BURN_BPS <= 100 <= config.MAX_BURN_BPS
  /\ (forall args, parse_args toy.int_of_str (toy.argv false) ∅ = Ret args ->
                   burn_bps args = 100)
  /\ (truthy (address_in_force (toy.argv false) ∅) = true ->
      exists args, parse_args toy.int_of_str (toy.argv false) ∅ = Ret args
                   /\ burn_bps args = 100)
  /\ (truthy (address_in_force (toy.argv false) ∅) = false ->
      exists msg, parse_args toy.int_of_str (toy.argv false) ∅ = ParserError msg).
Proof.
  apply (default_burn_bps_is_100 toy.int_of_str (toy.argv false) ∅); reflexivity.
Defined.

(** C10: an estimate of one unit is positive, its floor
    [1 * 99 // 100] is 0, and nothing rejects it: on the small fork, the
    holder whose 1% burn is estimated at one unit has the withdrawal sent
    with [min_received = 0], and the run completes. *)
Theorem unit_estimate_has_no_floor :
  0 < 1
  /\ min_received_of 1 = 0
  /\ exists (c' : toy.chain) (before after : list event),
       main toy.int_of_str toy.curve (toy.argv false) ∅ ∅ toy.dust
       = (c',
          before
            ++ CalcWithdrawOneCoin config.POOL_ADDRESS 1000000000000 0 (Ok 1%N)
            :: RemoveLiquidityOneCoin config.POOL_ADDRESS 1000000000000 0 0
                 toy.holder toy.holder
                 (Ok ("0x5c504ed432cb51138bcf09aa5e8a410dd4a1e204ef84bfed1be16dfba1b22060", 1))
            :: after,
          Ret tt).
Proof.
  split; [lia |]. split; [reflexivity |].
  eexists _, (firstn 12 (main toy.int_of_str toy.curve (toy.argv false) ∅ ∅ toy.dust).1.2),
    (skipn 14 (main toy.int_of_str toy.curve (toy.argv false) ∅ ∅ toy.dust).1.2).
  vm_compute. reflexivity.
Qed.

(** * Further properties *)

(** ** Sizing arithmetic *)

(** X1: [calc_burn_amount] returns exactly when the product of balance and
    basis points is at least 10000 or negative; it does not check signs
    itself, so a negative product gives a negative burn.  For inputs that
    are not negative, 10000 units of product are the threshold below which
    the position counts as too small. *)
Theorem calc_burn_amount_returns_iff (lp_balance burn_bps : Z) :
  (returns (calc_burn_amount lp_balance burn_bps) = true
   <-> lp_balance * burn_bps < 0 \/ 10000 <= lp_balance * burn_bps)
  /\ (forall burn, calc_burn_amount lp_balance burn_bps = Ret burn ->
                   (lp_balance * burn_bps < 0 -> burn < 0)
                   /\ (0 <= lp_balance * burn_bps -> 0 < burn)).
Proof.
  pose proof (floor_10000 (lp_balance * burn_bps)) as Hf.
  split.
  - destruct (calc_burn_amount_cases lp_balance burn_bps) as [[Hq Hr] | [Hq E]].
    + rewrite Hr. split; [discriminate | lia].
    + rewrite E. split; [lia | reflexivity].
  - intros burn H. apply calc_burn_amount_ret in H as [-> Hnz]. lia.
Qed.

(** X2: a position of at least 10000 raw units is never too small: for
    every basis-point value that [parse_args] accepts the burn is returned,
    and it loses less than one unit to rounding; at the upper bound 10000
    the whole balance is burned. *)
Theorem calc_burn_amount_sufficient_position (lp_balance burn_bps : Z) :
  10000 <= lp_balance -> 1 <= burn_bps <= 10000 ->
  (exists burn, calc_burn_amount lp_balance burn_bps = Ret burn
                /\ lp_balance * burn_bps - 10000 < 10000 * burn <= lp_balance * burn_bps)
  /\ calc_burn_amount lp_balance 10000 = Ret lp_balance.
Proof.
  intros Hlp Hbps. pose proof (floor_10000 (lp_balance * burn_bps)) as Hf. split.
  - destruct (calc_burn_amount_cases lp_balance burn_bps) as [[Hq _] | [_ E]].
    + nia.
    + eexists. split; [exact E | lia].
  - destruct (calc_burn_amount_cases lp_balance 10000) as [[Hq _] | [_ E]].
    + rewrite Z.div_mul in Hq by lia. lia.
    + rewrite E. rewrite Z.div_mul by lia. reflexivity.
Qed.

Lemma calc_burn_amount_sufficient_position_witness :
  (exists burn, calc_burn_amount 12345 7 = Ret burn
                /\ 12345 * 7 - 10000 < 10000 * burn <= 12345 * 7)
  /\ calc_burn_amount 12345 10000 = Ret 12345.
Proof. apply (calc_burn_amount_sufficient_position 12345 7); lia. Defined.

(** X3: for an estimate that is not negative, the floor on the output gives
    up at most one hundredth of the estimate, rounded up; it grows with the
    estimate; and it is zero exactly for the estimates 0 and 1. *)
Theorem min_received_within_one_percent (expected_usdc : Z) :
  0 <= expected_usdc ->
  0 <= min_received_of expected_usdc <= expected_usdc
  /\ 100 * (expected_usdc - min_received_of expected_usdc) < expected_usdc + 100
  /\ (forall larger, expected_usdc <= larger ->
                     min_received_of expected_usdc <= min_received_of larger)
  /\ (min_received_of expected_usdc = 0 <-> expected_usdc <= 1).
Proof.
  intros Hpos. unfold min_received_of. rewrite slippage_bps_eq.
  pose proof (Z.div_mod (expected_usdc * 99) 100 ltac:(lia)) as Hd.
  pose proof (Z.mod_pos_bound (expected_usdc * 99) 100 ltac:(lia)) as Hm.
  split; [lia |]. split; [lia |]. split.
  - intros larger Hle. apply Z.div_le_mono; lia.
  - lia.
Qed.

Lemma min_received_within_one_percent_witness :
  0 <= min_received_of 9850 <= 9850
  /\ 100 * (9850 - min_received_of 9850) < 9850 + 100
  /\ (forall larger, 9850 <= larger -> min_received_of 9850 <= min_received_of larger)
  /\ (min_received_of 9850 = 0 <-> 9850 <= 1).
Proof. apply (min_received_within_one_percent 9850). lia. Defined.

(** ** Argument parsing *)

Section MoreParsing.

Variable int_of_str : string -> option Z.

(** X4: [parse_args] accepts exactly the invocations whose BURN_BPS
    variable, if set, is an integer, whose burn size in force is an integer
    in [1, 10000] and whose address in force is a non-empty string; what it
    returns are the settings in force, each taken from the option first,
    then from the environment, then from the default. *)
Theorem parse_args_accepts_exactly (argv : Argv) (env : gmap string string)
    (args : Namespace) :
  parse_args int_of_str argv env = Ret args
  <-> returns (default_burn_bps int_of_str env) = true
      /\ truthy (address_in_force argv env) = true
      /\ burn_bps_in_force int_of_str argv env = Some (burn_bps args)
      /\ 1 <= burn_bps args <= 10000
      /\ rpc_url args = rpc_url_in_force argv env
      /\ impersonated_address args = address_in_force argv env
      /\ dry_run args = opt_dry_run argv.
Proof.
  unfold parse_args, parser_parse_args, burn_bps_in_force, address_in_force,
    rpc_url_in_force, default_burn_bps.
  change config.MIN_BURN_BPS with 1. change config.MAX_BURN_BPS with 10000.
  destruct args as [url addr bps dry]. cbn [rpc_url impersonated_address burn_bps dry_run].
  assert (Hfinal : forall n : Z,
    (if negb (truthy (match opt_impersonated_address argv with
                      | Some a => Some a
                      | None => env !! config.ENV_IMPERSONATED_ADDRESS
                      end))
     then ParserError ("Missing --impersonated-address (or set $"
                         +:+ config.ENV_IMPERSONATED_ADDRESS +:+ ").")
     else if negb ((1 <=? n) && (n <=? 10000))
          then ParserError ("--burn-bps must be between " +:+ pretty 1
                              +:+ " and " +:+ pretty 10000 +:+ ".")
          else Ret {| rpc_url := default (default config.DEFAULT_RPC_URL
                                            (env !! config.ENV_RPC_URL))
                                   (opt_rpc_url argv);
                      impersonated_address :=
                        match opt_impersonated_address argv with
                        | Some a => Some a
                        | None => env !! config.ENV_IMPERSONATED_ADDRESS
                        end;
                      burn_bps := n;
                      dry_run := opt_dry_run argv |})
    = Ret {| rpc_url := url; impersonated_address := addr; burn_bps := bps; dry_run := dry |}
    <-> truthy (match opt_impersonated_address argv with
                | Some a => Some a
                | None => env !! config.ENV_IMPERSONATED_ADDRESS
                end) = true
        /\ n = bps /\ 1 <= bps <= 10000
        /\ url = match opt_rpc_url argv with
                 | Some u => u
                 | None => match env !! config.ENV_RPC_URL with
                           | Some u => u
                           | None => config.DEFAULT_RPC_URL
                           end
                 end
        /\ addr = match opt_impersonated_address argv with
                  | Some a => Some a
                  | None => env !! config.ENV_IMPERSONATED_ADDRESS
                  end
        /\ dry = opt_dry_run argv).
  { intros n.
    destruct (truthy _) eqn:Ha; cbn [negb].
    - destruct (Z.leb_spec 1 n), (Z.leb_spec n 10000); cbn [andb negb];
        (split; [intros E; try discriminate E; injection E as <- <- <- <-;
                 repeat split; try lia;
                 destruct (opt_rpc_url argv), (env !! config.ENV_RPC_URL); reflexivity
                | intros (_ & -> & Hr & -> & -> & ->); try lia;
                  destruct (opt_rpc_url argv), (env !! config.ENV_RPC_URL); reflexivity]).
    - split; [discriminate | intros (H & _); discriminate H]. }
  destruct (env !! config.ENV_BURN_BPS) as [text |].
  - destruct (int_of_str text) as [d |].
    + destruct (opt_burn_bps argv) as [flag |].
      * destruct (int_of_str flag) as [n |].
        -- rewrite (Hfinal n). split.
           ++ intros (Ha & -> & Hr & H); repeat split; tauto || lia.
           ++ intros (_ & Ha & E & Hr & H). injection E as ->. tauto.
        -- split; [discriminate | intros (_ & _ & E & _); discriminate E].
      * rewrite (Hfinal d). split.
        -- intros (Ha & -> & Hr & H); repeat split; tauto || lia.
        -- intros (_ & Ha & E & Hr & H). injection E as ->. tauto.
    + split; [discriminate | intros (E & _); discriminate E].
  - destruct (opt_burn_bps argv) as [flag |].
    + destruct (int_of_str flag) as [n |].
      * rewrite (Hfinal n). split.
        -- intros (Ha & -> & Hr & H); repeat split; tauto || lia.
        -- intros (_ & Ha & E & Hr & H). injection E as ->. tauto.
      * split; [discriminate | intros (_ & _ & E & _); discriminate E].
    + rewrite (Hfinal 100). split.
      * intros (Ha & <- & Hr & H); repeat split; tauto || lia.
      * intros (_ & Ha & E & Hr & H). injection E as <-. tauto.
Qed.

(** X5: an empty address is a missing address, and the option hides the
    environment: with [--impersonated-address] given as the empty string,
    [parse_args] does not return, whatever IMPERSONATED_ADDRESS holds; the
    same goes for an empty IMPERSONATED_ADDRESS when the option is absent. *)
Theorem empty_address_is_missing (argv : Argv) (env : gmap string string) :
  opt_impersonated_address argv = Some EmptyString
  \/ (opt_impersonated_address argv = None
      /\ env !! config.ENV_IMPERSONATED_ADDRESS = Some EmptyString) ->
  returns (parse_args int_of_str argv env) = false.
Proof.
  intros Hempty.
  destruct (parse_args int_of_str argv env) as [args | | |] eqn:E; try reflexivity.
  exfalso. apply parse_args_ret in E as (Hns & Ha & _).
  unfold parser_parse_args in Hns.
  destruct (default_burn_bps int_of_str env) as [d | | |]; try discriminate.
  destruct (match opt_burn_bps argv with Some t => int_of_str t | None => Some d end);
    [| discriminate].
  injection Hns as <-. cbn in Ha.
  destruct Hempty as [H | [H1 H2]]; [rewrite H in Ha | rewrite H1, H2 in Ha];
    discriminate Ha.
Qed.

End MoreParsing.

(** ** Every way a run ends *)

Section HowRunsEnd.

Variable int_of_str : string -> option Z.
Context {Chain : Type}.
Variable w3 : Fork Chain.

(** [read_balances] leaves the chain as it is and ends by the snapshot or
    by the exception of a read. *)
Lemma read_balances_ends (pool usdc address : string) (c c' : Chain) (l : list event)
    (o : outcome Balances) :
  read_balances w3 pool usdc address c = (c', l, o) ->
  c' = c /\ ((exists b, o = Ret b) \/ (exists e, o = Raise e)).
Proof.
  destruct (read_balances_spec w3 pool usdc address c) as (tl & o0 & -> & _ & Hfail & _).
  intros E. injection E as <- _ <-. split; [reflexivity |].
  destruct o0; eauto; destruct (Hfail eq_refl) as [e He]; discriminate He.
Qed.

Lemma withdrawal_ends_eq (ctx : context) (c c' : Chain) (l l' : list event)
    (o : outcome unit) :
  withdrawal_ends w3 ctx c c' l o -> l = l' -> withdrawal_ends w3 ctx c c' l' o.
Proof. intros H <-. exact H. Qed.

Lemma withdrawal_ends_intro (ctx : context) (c c' : Chain) (l : list event)
    (o : outcome unit) :
  withdrawal w3 ctx c = (c', l, o) -> withdrawal_ends w3 ctx c c' l o.
Proof.
  unfold withdrawal, bind. cbv zeta.
  destruct (read_balances w3 (ctx_pool_address ctx) (ctx_usdc_address ctx)
              (ctx_impersonated ctx) c) as [[c0 reads] ob] eqn:Hread.
  destruct (read_balances_ends _ _ _ _ _ _ _ Hread) as [-> [[b ->] | [e ->]]].
  2:{ intros E. injection E as <- <- <-. eapply snapshot_failed. exact Hread. }
  destruct (Z.eqb_spec (lp_balance b) 0) as [Hz | Hnz].
  { unfold sys_exit, lift. rewrite List.app_nil_r. intros E. injection E as <- <- <-.
    eapply no_shares; eassumption. }
  unfold lift at 1.
  destruct (calc_burn_amount (lp_balance b) (burn_bps (ctx_args ctx)))
    as [burn | msg | msg | e] eqn:Hburn.
  2:{ rewrite List.app_nil_r. intros E. injection E as <- <- <-.
      eapply too_small; eassumption. }
  2:{ exfalso. unfold calc_burn_amount in Hburn.
      destruct (_ =? 0) in Hburn; discriminate Hburn. }
  2:{ exfalso. unfold calc_burn_amount in Hburn.
      destruct (_ =? 0) in Hburn; discriminate Hburn. }
  unfold estimate_usdc, call, bind, view, unwrap, ret, raise, sys_exit, lift.
  destruct (calc_withdraw_one_coin w3 c (ctx_pool_address ctx) burn (ctx_usdc_index ctx))
    as [expected | e] eqn:Hest.
  2:{ cbn. intros E. injection E as <- <- <-. eapply estimate_raised; eassumption. }
  destruct (Z.eqb_spec (Z.of_N expected) 0) as [Hez | Henz].
  { assert (expected = 0%N) as -> by lia.
    cbn. intros E. injection E as <- <- <-. eapply estimate_zero; eassumption. }
  assert (Hexp : expected <> 0%N) by lia.
  destruct (dry_run (ctx_args ctx)) eqn:Hdry.
  { unfold emit. cbn. intros E. injection E as <- <- <-.
    eapply dry_run_reported; eassumption. }
  unfold withdraw_one_coin, bind, emit, sys_exit, lift, ret.
  destruct (remove_liquidity_one_coin w3 c (ctx_pool_address ctx) burn (ctx_usdc_index ctx)
              (min_received_of (Z.of_N expected)) (ctx_impersonated ctx)
              (ctx_impersonated ctx)) as [[[c1 tx] status] | e] eqn:Hrm.
  2:{ cbn. intros E. injection E as <- <- <-. eapply transaction_raised; eassumption. }
  destruct (Z.eqb_spec status 1) as [Hs | Hs]; cbn [negb].
  - destruct (read_balances w3 (ctx_pool_address ctx) (ctx_usdc_address ctx)
                (ctx_impersonated ctx) c1) as [[c2 reads2] oa] eqn:Hread2.
    destruct (read_balances_ends _ _ _ _ _ _ _ Hread2) as [-> [[after ->] | [e ->]]].
    + cbn. intros E. injection E as <- <- <-.
      eapply withdrawal_ends_eq.
      * eapply transaction_mined; try eassumption. apply result_reported; eassumption.
      * cbn. rewrite <- ?List.app_assoc. reflexivity.
    + cbn. intros E. injection E as <- <- <-.
      eapply withdrawal_ends_eq.
      * eapply transaction_mined; try eassumption.
        apply second_snapshot_failed; eassumption.
      * cbn. rewrite <- ?List.app_assoc. reflexivity.
  - cbn. intros E. injection E as <- <- <-.
    eapply withdrawal_ends_eq.
    + eapply transaction_mined; try eassumption. apply status_failed; assumption.
    + cbn. rewrite <- ?List.app_assoc. reflexivity.
Qed.

Lemma setup_ends_eq (argv : Argv) (environ dotenv : gmap string string) (c c' : Chain)
    (l l' : list event) (o : outcome context) :
  setup_ends int_of_str w3 argv environ dotenv c c' l o -> l = l' ->
  setup_ends int_of_str w3 argv environ dotenv c c' l' o.
Proof. intros H <-. exact H. Qed.

Lemma setup_ends_intro (argv : Argv) (environ dotenv : gmap string string) (c c' : Chain)
    (l : list event) (o : outcome context) :
  setup int_of_str w3 argv environ dotenv c = (c', l, o) ->
  setup_ends int_of_str w3 argv environ dotenv c c' l o.
Proof.
  unfold setup. cbv zeta. unfold bind at 1. unfold lift at 1.
  destruct (parse_args int_of_str argv (load_dotenv environ dotenv))
    as [args | msg | msg | e] eqn:Hargs;
    try (intros E; injection E as <- <- <-; apply setup_rejected;
         rewrite Hargs; reflexivity).
  unfold get_web3, bind, emit, sys_exit, lift, ret.
  destruct (is_connected w3 (rpc_url args)) eqn:Hnode; cbn [negb].
  2:{ cbn. intros E. injection E as <- <- <-. eapply setup_unreachable; eassumption. }
  unfold to_checksum, sys_exit, lift, ret.
  destruct (to_checksum_address w3 (default EmptyString (impersonated_address args)))
    as [impersonated |] eqn:Himp.
  2:{ cbn. intros E. injection E as <- <- <-. eapply setup_bad_address; eauto. }
  destruct (to_checksum_address w3 config.POOL_ADDRESS) as [pool |] eqn:Hpool.
  2:{ cbn. intros E. injection E as <- <- <-. eapply setup_bad_address; eauto. }
  destruct (to_checksum_address w3 config.USDC_ADDRESS) as [usdc |] eqn:Husdc.
  2:{ cbn. intros E. injection E as <- <- <-. eapply setup_bad_address; eauto. }
  unfold eth_accounts, bind, emit, ret.
  destruct (accounts w3) as [| funder others] eqn:Hacc.
  { cbn. intros E. injection E as <- <- <-. eapply setup_no_accounts; eassumption. }
  assert (Hgates : gates_passed int_of_str w3 argv environ dotenv args impersonated pool usdc
                     funder).
  { constructor; try assumption. exists others. exact Hacc. }
  unfold unwrap, ret, impersonate_and_fund, bind, emit, sys_exit, lift.
  destruct (anvil_impersonateAccount w3 c impersonated) as [c1 error] eqn:Himpersonate.
  destruct (truthy error) eqn:Herr.
  { cbn. intros E. injection E as <- <- <-. rewrite <- Hacc.
    eapply setup_impersonation_error; eassumption. }
  destruct (send_transaction w3 c1 funder impersonated fund_wei) as [c2 | e] eqn:Hsend.
  2:{ cbn. intros E. injection E as <- <- <-. rewrite <- Hacc.
      eapply setup_funding_raised; eassumption. }
  destruct (get_usdc_index_spec w3 c2 pool usdc) as (k & oi & Hidx & _ & _ & _ & _ & Hstop).
  rewrite Hidx.
  destruct oi as [usdc_index | msg | msg | e].
  - cbn. intros E. injection E as <- <- <-. rewrite <- Hacc.
    eapply setup_ends_eq; [eapply setup_complete; eassumption |].
    cbn. rewrite List.app_nil_r. reflexivity.
  - cbn. intros E. injection E as <- <- <-. rewrite <- Hacc.
    eapply setup_unresolved; try eassumption; reflexivity.
  - specialize (Hstop eq_refl). discriminate Hstop.
  - cbn. intros E. injection E as <- <- <-. rewrite <- Hacc.
    eapply setup_unresolved; try eassumption; reflexivity.
Qed.

(** A run is a [setup] that stops, or a [setup] that completes followed by
    a [withdrawal]. *)
Lemma main_ends (argv : Argv) (environ dotenv : gmap string string) (c c' : Chain)
    (l : list event) (o : outcome unit) :
  main int_of_str w3 argv environ dotenv c = (c', l, o) ->
  (exists o1, setup_ends int_of_str w3 argv environ dotenv c c' l o1 /\ same_stop o1 o)
  \/ (exists ctx c1 l1 l2,
        setup_ends int_of_str w3 argv environ dotenv c c1 l1 (Ret ctx)
        /\ withdrawal_ends w3 ctx c1 c' l2 o
        /\ l = l1 ++ l2).
Proof.
  rewrite main_split. unfold bind.
  destruct (setup int_of_str w3 argv environ dotenv c) as [[c1 l1] o1] eqn:Hsetup.
  apply setup_ends_intro in Hsetup.
  destruct o1 as [ctx | msg | msg | e];
    try (intros E; injection E as <- <- <-; left; eexists; split;
         [exact Hsetup | reflexivity]).
  destruct (withdrawal w3 ctx c1) as [[c2 l2] o2] eqn:Hw.
  apply withdrawal_ends_intro in Hw.
  intros E. injection E as <- <- <-. right. eauto 8.
Qed.

End HowRunsEnd.

(** ** What the transcripts of the parts hold *)

Section Parts.

Context {Chain : Type}.
Variable w3 : Fork Chain.

Lemma read_balances_reads (pool usdc address : string) (c : Chain) :
  Forall (fun e => is_read e = true) (read_balances w3 pool usdc address c).1.2.
Proof.
  unfold read_balances, call, bind, view, unwrap, ret, raise, lift.
  destruct (balanceOf w3 c pool address); [| repeat constructor].
  destruct (balanceOf w3 c usdc address); [| repeat constructor].
  destruct (decimals w3 c pool); [| repeat constructor].
  destruct (decimals w3 c usdc); [| repeat constructor].
  destruct (symbol w3 c usdc); repeat constructor.
Qed.

Lemma get_usdc_index_probes (pool usdc_address : string) (c : Chain) :
  Forall (fun e => is_coins e = true) (get_usdc_index w3 pool usdc_address c).1.2.
Proof.
  destruct (get_usdc_index_spec w3 c pool usdc_address) as (k & o & -> & _).
  cbn. apply List.Forall_map. apply List.Forall_forall. intros; reflexivity.
Qed.

(** X6: a snapshot is all or nothing.  [read_balances] returns exactly when
    the five reads all answer, and then the snapshot holds the five answers
    and the transcript the five reads in the order of the source; when a
    read raises, that exception ends the call and nothing is read after it.
    The chain is never changed. *)
Theorem read_balances_all_or_nothing (pool usdc address : string) (c : Chain) :
  (read_balances w3 pool usdc address c).1.1 = c
  /\ (returns (read_balances w3 pool usdc address c).2 = true
      <-> exists lp us d1 d2 sy,
            balanceOf w3 c pool address = Ok lp
            /\ balanceOf w3 c usdc address = Ok us
            /\ decimals w3 c pool = Ok d1
            /\ decimals w3 c usdc = Ok d2
            /\ symbol w3 c usdc = Ok sy)
  /\ (forall lp us d1 d2 sy,
        balanceOf w3 c pool address = Ok lp ->
        balanceOf w3 c usdc address = Ok us ->
        decimals w3 c pool = Ok d1 ->
        decimals w3 c usdc = Ok d2 ->
        symbol w3 c usdc = Ok sy ->
        read_balances w3 pool usdc address c
        = (c,
           [BalanceOf pool address (Ok lp); BalanceOf usdc address (Ok us);
            Decimals pool (Ok d1); Decimals usdc (Ok d2); Symbol usdc (Ok sy)],
           Ret {| lp_balance := Z.of_N lp; usdc_balance := Z.of_N us;
                  lp_decimals := Z.of_N d1; usdc_decimals := Z.of_N d2;
                  usdc_symbol := sy |}))
  /\ (returns (read_balances w3 pool usdc address c).2 = false ->
      exists e before,
        (read_balances w3 pool usdc address c).2 = Raise e
        /\ (read_balances w3 pool usdc address c).1.2
           = before ++ [match before with
                        | [] => BalanceOf pool address (Err e)
                        | [_] => BalanceOf usdc address (Err e)
                        | [_; _] => Decimals pool (Err e)
                        | [_; _; _] => Decimals usdc (Err e)
                        | _ => Symbol usdc (Err e)
                        end]
        /\ Forall (fun ev => is_read ev = true) before).
Proof.
  unfold read_balances, call, bind, view, unwrap, ret, raise, lift.
  destruct (balanceOf w3 c pool address) as [lp | e1].
  2:{ cbn. split; [reflexivity |]. split.
      - split; [discriminate | intros (? & ? & ? & ? & ? & E & _); discriminate E].
      - split; [intros; discriminate |].
        intros _. exists e1, []. repeat split. constructor. }
  destruct (balanceOf w3 c usdc address) as [us | e2].
  2:{ cbn. split; [reflexivity |]. split.
      - split; [discriminate | intros (? & ? & ? & ? & ? & _ & E & _); discriminate E].
      - split; [intros; discriminate |].
        intros _. exists e2, [BalanceOf pool address (Ok lp)].
        repeat split. repeat constructor. }
  destruct (decimals w3 c pool) as [d1 | e3].
  2:{ cbn. split; [reflexivity |]. split.
      - split; [discriminate | intros (? & ? & ? & ? & ? & _ & _ & E & _); discriminate E].
      - split; [intros; discriminate |].
        intros _. exists e3, [BalanceOf pool address (Ok lp); BalanceOf usdc address (Ok us)].
        repeat split. repeat constructor. }
  destruct (decimals w3 c usdc) as [d2 | e4].
  2:{ cbn. split; [reflexivity |]. split.
      - split; [discriminate
               | intros (? & ? & ? & ? & ? & _ & _ & _ & E & _); discriminate E].
      - split; [intros; discriminate |].
        intros _. exists e4, [BalanceOf pool address (Ok lp); BalanceOf usdc address (Ok us);
                              Decimals pool (Ok d1)].
        repeat split. repeat constructor. }
  destruct (symbol w3 c usdc) as [sy | e5].
  2:{ cbn. split; [reflexivity |]. split.
      - split; [discriminate
               | intros (? & ? & ? & ? & ? & _ & _ & _ & _ & E); discriminate E].
      - split; [intros; discriminate |].
        intros _. exists e5, [BalanceOf pool address (Ok lp); BalanceOf usdc address (Ok us);
                              Decimals pool (Ok d1); Decimals usdc (Ok d2)].
        repeat split. repeat constructor. }
  cbn. split; [reflexivity |]. split.
  - split; [intros _; eauto 10 | reflexivity].
  - split; [| discriminate].
    intros ? ? ? ? ? E1 E2 E3 E4 E5.
    injection E1 as <-. injection E2 as <-. injection E3 as <-.
    injection E4 as <-. injection E5 as <-. reflexivity.
Qed.

End Parts.

(** ** The order of a run *)

Section Order.

Variable int_of_str : string -> option Z.
Context {Chain : Type}.
Variable w3 : Fork Chain.

Lemma same_stop_status {A B} (o1 : outcome A) (o2 : outcome B) :
  same_stop o1 o2 -> returns o2 = false /\ exit_status o2 = exit_status o1.
Proof. destruct o1, o2; cbn; intros H; try contradiction; split; reflexivity. Qed.

Lemma same_stop_sys_exit {A B} (msg : string) (o2 : outcome B) :
  same_stop (SysExit msg : outcome A) o2 -> o2 = SysExit msg.
Proof. destruct o2; cbn; intros H; try contradiction. subst. reflexivity. Qed.

Lemma same_stop_raise {A B} (e : exn) (o2 : outcome B) :
  same_stop (Raise e : outcome A) o2 -> o2 = Raise e.
Proof. destruct o2; cbn; intros H; try contradiction. subst. reflexivity. Qed.

Lemma same_stop_not_ret {A B} (o1 : outcome A) (b : B) : same_stop o1 (Ret b) -> False.
Proof. destruct o1; cbn; intros H; exact H. Qed.

(** A [setup] that completes passed every gate. *)
Ltac completed Hs :=
  inversion Hs; subst;
  try discriminate;
  try (exfalso; eapply same_stop_not_ret; eassumption).

Ltac same_args :=
  repeat match goal with
  | H1 : parse_args ?i ?a ?e = Ret ?x, H2 : parse_args ?i ?a ?e = Ret ?y |- _ =>
      rewrite H1 in H2; injection H2 as <-
  | H1 : parse_args ?i ?a ?e = Ret ?x, H2 : parse_args ?i ?a ?e = Ret ?x |- _ =>
      clear H2
  end.

(** X7: validation comes before any change.  When the node does not
    answer, when one of the three addresses has no checksum form, or when
    the node lists no account, the run stops with status 1 and the chain as
    it was: all it asked of the node is the connection check and, at most,
    the list of accounts. *)
Theorem validation_before_mutation (argv : Argv) (environ dotenv : gmap string string)
    (c c' : Chain) (l : list event) (o : outcome unit) (args : Namespace) :
  main int_of_str w3 argv environ dotenv c = (c', l, o) ->
  parse_args int_of_str argv (load_dotenv environ dotenv) = Ret args ->
  is_connected w3 (rpc_url args) = false
  \/ to_checksum_address w3 (default EmptyString (impersonated_address args)) = None
  \/ to_checksum_address w3 config.POOL_ADDRESS = None
  \/ to_checksum_address w3 config.USDC_ADDRESS = None
  \/ accounts w3 = [] ->
  c' = c
  /\ returns o = false
  /\ exit_status o = 1
  /\ Forall (fun e => is_gate e = true) l
  /\ (length l <= 2)%nat.
Proof.
  intros Hrun Hargs Hbad.
  assert (Hno : forall a imp pool usdc funder,
             gates_passed int_of_str w3 argv environ dotenv a imp pool usdc funder -> False).
  { intros a imp pool usdc funder [G1 G2 G3 G4 G5 [others G6]]. same_args.
    destruct Hbad as [H | [H | [H | [H | H]]]]; congruence. }
  apply main_ends in Hrun as [(o1 & Hs & Hsame) | (ctx & c1 & l1 & l2 & Hs & _ & _)].
  - inversion Hs; subst; same_args;
      try (exfalso; eapply Hno; eassumption).
    + rewrite Hargs in *. contradiction.
    + apply same_stop_sys_exit in Hsame as ->. repeat split; repeat constructor.
    + apply same_stop_sys_exit in Hsame as ->. repeat split; repeat constructor.
    + apply same_stop_sys_exit in Hsame as ->. repeat split; repeat constructor.
  - completed Hs. exfalso; eapply Hno; eassumption.
Qed.

(** Transcripts of [setup] hold nothing from the snapshot on. *)
Lemma setup_ends_not_late (argv : Argv) (environ dotenv : gmap string string)
    (c c1 : Chain) (l : list event) (o : outcome context) :
  setup_ends int_of_str w3 argv environ dotenv c c1 l o ->
  Forall (fun e => is_late e = false) l.
Proof.
  assert (Hprobes : forall pool usdc c2 probes (oi : outcome Z),
             get_usdc_index w3 pool usdc c2 = (c2, probes, oi) ->
             Forall (fun e => is_late e = false) probes).
  { intros pool usdc c2 probes oi E.
    pose proof (get_usdc_index_probes w3 pool usdc c2) as H. rewrite E in H. cbn in H.
    eapply Forall_impl; [exact H |]. intros [] He; cbn in *; congruence. }
  intros Hs. inversion Hs; subst; repeat constructor; eauto.
Qed.

Lemma reads_not_sizing (pool usdc address : string) (c c' : Chain) (reads : list event)
    (o : outcome Balances) :
  read_balances w3 pool usdc address c = (c', reads, o) ->
  Forall (fun e => is_sizing e = false) reads.
Proof.
  intros E. pose proof (read_balances_reads w3 pool usdc address c) as H.
  rewrite E in H. cbn in H. eapply Forall_impl; [exact H |].
  intros [] He; cbn in *; congruence.
Qed.

Lemma not_sizing_app (l1 l2 : list event) :
  Forall (fun e => is_sizing e = false) l1 ->
  Forall (fun e => is_sizing e = false) l2 ->
  Forall (fun e => is_sizing e = false) (l1 ++ l2).
Proof. intros. apply Forall_app. split; assumption. Qed.

Lemma no_withdrawal (l : list event) :
  Forall (fun e => is_sizing e = false) l -> Forall (fun e => is_withdrawal e = false) l.
Proof. intros H. eapply Forall_impl; [exact H | apply not_sizing_not_withdrawal]. Qed.

Lemma estimate_reply_app (l1 l2 : list event) :
  Forall (fun e => is_sizing e = false) l1 ->
  estimate_reply (l1 ++ l2) = estimate_reply l2.
Proof.
  induction 1 as [| e l1 He _ IH]; [reflexivity |].
  cbn. destruct e; try exact IH. discriminate He.
Qed.

Lemma withdrawal_reply_app (l1 l2 : list event) :
  Forall (fun e => is_withdrawal e = false) l1 ->
  withdrawal_reply (l1 ++ l2) = withdrawal_reply l2.
Proof.
  induction 1 as [| e l1 He _ IH]; [reflexivity |].
  cbn. destruct e; try exact IH. discriminate He.
Qed.

Lemma estimate_reply_none (l : list event) :
  Forall (fun e => is_sizing e = false) l -> estimate_reply l = None.
Proof.
  intros H. rewrite <- (List.app_nil_r l), estimate_reply_app by exact H. reflexivity.
Qed.

Lemma withdrawal_reply_none (l : list event) :
  Forall (fun e => is_withdrawal e = false) l -> withdrawal_reply l = None.
Proof.
  intros H. rewrite <- (List.app_nil_r l), withdrawal_reply_app by exact H. reflexivity.
Qed.

Lemma guarded_without_withdrawal (l : list event) (prev : option event) :
  Forall (fun e => is_withdrawal e = false) l -> withdrawals_guarded prev l.
Proof.
  intros H. revert prev. induction H as [| e l He _ IH]; intros prev; [exact I |].
  cbn. split; [| apply IH]. destruct e; try exact I. discriminate He.
Qed.

Lemma guarded_app (l1 l2 : list event) (prev : option event) :
  Forall (fun e => is_withdrawal e = false) l1 ->
  (forall p, withdrawals_guarded p l2) ->
  withdrawals_guarded prev (l1 ++ l2).
Proof.
  intros H H2. revert prev. induction H as [| e l He _ IH]; intros prev; [apply H2 |].
  cbn. split; [| apply IH]. destruct e; try exact I. discriminate He.
Qed.

Lemma filter_without_withdrawal (l : list event) :
  Forall (fun e => is_withdrawal e = false) l -> List.filter is_withdrawal l = [].
Proof.
  induction 1 as [| e l He _ IH]; [reflexivity |]. cbn. rewrite He. exact IH.
Qed.

(** What follows a mined transaction holds no further withdrawal and no
    estimate. *)
Lemma after_mined_not_sizing_but_report (ctx : context) (b : Balances) (burn expected : Z)
    (c1 c2 : Chain) (tx : string) (status : Z) (rest : list event) (o : outcome unit) :
  after_mined w3 ctx b burn expected c1 tx status c2 rest o ->
  Forall (fun e => is_withdrawal e = false) rest /\ estimate_reply rest = None.
Proof.
  intros H. inversion H; subst.
  - split; [constructor | reflexivity].
  - pose proof (reads_not_sizing _ _ _ _ _ _ _ H1) as Hr.
    split; [apply no_withdrawal; exact Hr | apply estimate_reply_none; exact Hr].
  - pose proof (reads_not_sizing _ _ _ _ _ _ _ H1) as Hr. split.
    + apply Forall_app. split; [apply no_withdrawal; exact Hr | repeat constructor].
    + rewrite estimate_reply_app by exact Hr. reflexivity.
Qed.

(** X8: exit status 2 means that nothing was touched: a run that ends with
    it was stopped by the usage error of [parse_args], before any request,
    with the chain as it was; every other way to stop has status 1. *)
Theorem usage_status_means_untouched (argv : Argv) (environ dotenv : gmap string string)
    (c c' : Chain) (l : list event) (o : outcome unit) :
  main int_of_str w3 argv environ dotenv c = (c', l, o) ->
  (exit_status o = 2 ->
   c' = c /\ l = []
   /\ exists msg, o = ParserError msg
                  /\ parse_args int_of_str argv (load_dotenv environ dotenv)
                     = ParserError msg)
  /\ (returns o = false -> l <> [] -> exit_status o = 1).
Proof.
  intros Hrun.
  apply main_ends in Hrun as [(o1 & Hs & Hsame) | (ctx & c1 & l1 & l2 & Hs & Hw & ->)].
  - inversion Hs; subst;
      try (apply same_stop_sys_exit in Hsame as ->; split; [discriminate | reflexivity]);
      try (apply same_stop_raise in Hsame as ->; split; [discriminate | reflexivity]).
    + split; [| intros _ Hne; contradiction].
      intros Hst.
      destruct (parse_args int_of_str argv (load_dotenv environ dotenv)) as [? | m | m | e];
        destruct o1, o; cbn in *; try contradiction; try discriminate; subst.
      repeat split. eauto.
    + destruct (same_stop_status _ _ Hsame) as [Hr He].
      split; [intros Hst; rewrite He in Hst; lia | intros _ _; lia].
    + destruct o; contradiction.
  - inversion Hw; subst;
      try match goal with
          | H : after_mined _ _ _ _ _ _ _ _ _ _ _ |- _ => inversion H; subst
          end;
      (split; [discriminate | intros Hr Hne; first [reflexivity | discriminate Hr]]).
Qed.

(** X9: when the node answers the impersonation request with an error, the
    run exits with status 1 right there: the request is the last entry of
    the transcript, before it stand only the connection check and the
    listing of accounts, and no funding transfer is sent. *)
Theorem impersonation_error_stops (argv : Argv) (environ dotenv : gmap string string)
    (c c' : Chain) (l : list event) (o : outcome unit) (a : string)
    (error : option string) :
  main int_of_str w3 argv environ dotenv c = (c', l, o) ->
  impersonation_reply l = Some (a, error) ->
  truthy error = true ->
  returns o = false
  /\ exit_status o = 1
  /\ funding_transfer l = None
  /\ exists before, l = before ++ [ImpersonateAccount a error]
                    /\ Forall (fun e => is_gate e = true) before.
Proof.
  intros Hrun Hreply Herr.
  apply main_ends in Hrun as [(o1 & Hs & Hsame) | (ctx & c1 & l1 & l2 & Hs & Hw & ->)].
  - inversion Hs; subst; cbn in Hreply; try discriminate Hreply;
      injection Hreply as <- <-; try congruence.
    apply same_stop_sys_exit in Hsame as ->.
    repeat split.
    exists [IsConnected (rpc_url args) true; Accounts (accounts w3); Accounts (accounts w3)].
    split; [reflexivity | repeat constructor].
  - completed Hs. cbn in Hreply. injection Hreply as <- <-. congruence.
Qed.

(** X10: every withdrawal is guarded, and there is at most one.  In every
    run, whatever the invocation and the fork, a withdrawal comes right
    after the pool's estimate for the same pool, burn and index; that
    estimate is not zero, the floor sent is 99 hundredths of it, rounded
    down, and the output goes to the sender.  No run sends a second
    withdrawal. *)
Theorem every_withdrawal_is_guarded (argv : Argv) (environ dotenv : gmap string string)
    (c : Chain) :
  withdrawals_guarded None (main int_of_str w3 argv environ dotenv c).1.2
  /\ (length (List.filter is_withdrawal (main int_of_str w3 argv environ dotenv c).1.2)
      <= 1)%nat.
Proof.
  destruct (main int_of_str w3 argv environ dotenv c) as [[c' l] o] eqn:Hrun. cbn.
  apply main_ends in Hrun as [(o1 & Hs & Hsame) | (ctx & c1 & l1 & l2 & Hs & Hw & ->)].
  - apply setup_ends_not_late in Hs.
    assert (Hn : Forall (fun e => is_withdrawal e = false) l).
    { eapply Forall_impl; [exact Hs | apply not_late_not_withdrawal]. }
    split; [apply guarded_without_withdrawal; exact Hn |].
    rewrite filter_without_withdrawal by exact Hn. cbn. lia.
  - apply setup_ends_not_late in Hs.
    assert (Hn1 : Forall (fun e => is_withdrawal e = false) l1).
    { eapply Forall_impl; [exact Hs | apply not_late_not_withdrawal]. }
    rewrite List.filter_app, (filter_without_withdrawal l1 Hn1). cbn [app].
    assert (Hquiet : forall l2 : list event,
               Forall (fun e => is_withdrawal e = false) l2 ->
               withdrawals_guarded None (l1 ++ l2)
               /\ (length (List.filter is_withdrawal l2) <= 1)%nat).
    { intros q Hq. split.
      - apply guarded_without_withdrawal. apply Forall_app. split; assumption.
      - rewrite filter_without_withdrawal by exact Hq. cbn. lia. }
    inversion Hw; subst;
      match goal with
      | H : read_balances _ _ _ _ _ = _ |- _ =>
          pose proof (no_withdrawal _ (reads_not_sizing _ _ _ _ _ _ _ H)) as Hreads
      end;
      try solve [apply Hquiet;
                 first [exact Hreads
                       | apply Forall_app; split; [exact Hreads | repeat constructor]]].
    + (* the transaction raised *)
      split.
      * apply guarded_app; [exact Hn1 | intros p].
        apply guarded_app; [exact Hreads | intros p'].
        cbn. unfold min_received_of. rewrite slippage_bps_eq. repeat split. assumption.
      * rewrite List.filter_app, (filter_without_withdrawal reads Hreads). cbn. lia.
    + (* the transaction was mined *)
      match goal with
      | H : after_mined _ _ _ _ _ _ _ _ _ _ _ |- _ =>
          apply after_mined_not_sizing_but_report in H as [Hrest _]
      end.
      split.
      * apply guarded_app; [exact Hn1 | intros p].
        apply guarded_app; [exact Hreads | intros p'].
        cbn. unfold min_received_of. rewrite slippage_bps_eq.
        repeat split; try assumption.
        apply guarded_without_withdrawal. exact Hrest.
      * rewrite List.filter_app, (filter_without_withdrawal reads Hreads). cbn.
        rewrite (filter_without_withdrawal rest Hrest). cbn. lia.
Qed.

(** X11: a withdrawal is only sent for an account the node agreed to
    impersonate and that was funded.  In a run that holds a withdrawal, the
    first impersonation request was answered without error, the funding
    transfer of 10^17 wei from the first account the node lists went
    through, and every withdrawal is sent on the pool of the configuration
    by the impersonated holder, to that same holder. *)
Theorem withdrawal_needs_impersonation (argv : Argv) (environ dotenv : gmap string string)
    (c c' : Chain) (l : list event) (o : outcome unit) :
  main int_of_str w3 argv environ dotenv c = (c', l, o) ->
  existsb is_withdrawal l = true ->
  exists (args : Namespace) (holder pool funder : string) (error : option string),
    parse_args int_of_str argv (load_dotenv environ dotenv) = Ret args
    /\ to_checksum_address w3 (default EmptyString (impersonated_address args)) = Some holder
    /\ to_checksum_address w3 config.POOL_ADDRESS = Some pool
    /\ head (accounts w3) = Some funder
    /\ impersonation_reply l = Some (holder, error)
    /\ truthy error = false
    /\ funding_transfer l = Some (funder, holder, 100000000000000000, None)
    /\ Forall (withdrawal_from pool holder) l.
Proof.
  intros Hrun Hsome.
  assert (Hnone : forall q : list event,
             Forall (fun e => is_withdrawal e = false) q -> existsb is_withdrawal q = false).
  { induction 1 as [| e q He _ IH]; [reflexivity |]. cbn. rewrite He. exact IH. }
  assert (Hfrom : forall pool holder (q : list event),
             Forall (fun e => is_withdrawal e = false) q ->
             Forall (withdrawal_from pool holder) q).
  { intros pool holder q Hq. eapply Forall_impl; [exact Hq |].
    intros [] He; cbn in *; (exact I || discriminate). }
  apply main_ends in Hrun as [(o1 & Hs & Hsame) | (ctx & c1 & l1 & l2 & Hs & Hw & ->)].
  - apply setup_ends_not_late in Hs. rewrite Hnone in Hsome; [discriminate |].
    eapply Forall_impl; [exact Hs | apply not_late_not_withdrawal].
  - pose proof (setup_ends_not_late _ _ _ _ _ _ _ Hs) as Hl1.
    assert (Hn1 : Forall (fun e => is_withdrawal e = false) l1).
    { eapply Forall_impl; [exact Hl1 | apply not_late_not_withdrawal]. }
    completed Hs.
    match goal with H : gates_passed _ _ _ _ _ _ _ _ _ _ |- _ =>
                      destruct H as [G1 G2 G3 G4 G5 [others G6]] end.
    exists args, impersonated, pool, funder, error.
    split; [exact G1 |]. split; [exact G3 |]. split; [exact G4 |].
    split; [rewrite G6; reflexivity |].
    split; [reflexivity |]. split; [assumption |]. split; [reflexivity |].
    apply Forall_app. split; [apply Hfrom; exact Hn1 |].
    inversion Hw; subst; cbn [ctx_pool_address ctx_impersonated] in *;
      match goal with
      | H : read_balances _ _ _ _ _ = _ |- _ =>
          pose proof (no_withdrawal _ (reads_not_sizing _ _ _ _ _ _ _ H)) as Hreads
      end;
      try solve [apply Hfrom;
                 first [exact Hreads
                       | apply Forall_app; split; [exact Hreads | repeat constructor]]].
    + apply Forall_app. split; [apply Hfrom; exact Hreads |].
      repeat constructor.
    + match goal with
      | H : after_mined _ _ _ _ _ _ _ _ _ _ _ |- _ =>
          apply after_mined_not_sizing_but_report in H as [Hrest _]
      end.
      apply Forall_app. split; [apply Hfrom; exact Hreads |].
      apply Forall_app. split; [repeat constructor | apply Hfrom; exact Hrest].
Qed.

(** X12: a mined transaction whose status is not 1 is final.  The run
    exits with status 1 and the message that names the status and the
    transaction hash; the withdrawal is the last entry of the transcript:
    it is not sent again, no balance is read after it and nothing is
    reported. *)
Theorem failed_transaction_is_final (argv : Argv) (environ dotenv : gmap string string)
    (c c' : Chain) (l : list event) (o : outcome unit) (tx_hash : string) (status : Z) :
  main int_of_str w3 argv environ dotenv c = (c', l, o) ->
  withdrawal_reply l = Some (Ok (tx_hash, status)) ->
  status <> 1 ->
  o = SysExit (transaction_failed_msg status tx_hash)
  /\ exists before last_entry,
       l = before ++ [last_entry]
       /\ is_withdrawal last_entry = true
       /\ Forall (fun e => is_withdrawal e = false) before.
Proof.
  intros Hrun Hreply Hstatus.
  apply main_ends in Hrun as [(o1 & Hs & Hsame) | (ctx & c1 & l1 & l2 & Hs & Hw & ->)].
  - apply setup_ends_not_late in Hs. rewrite withdrawal_reply_none in Hreply; [discriminate |].
    eapply Forall_impl; [exact Hs | apply not_late_not_withdrawal].
  - apply setup_ends_not_late in Hs.
    assert (Hn1 : Forall (fun e => is_withdrawal e = false) l1).
    { eapply Forall_impl; [exact Hs | apply not_late_not_withdrawal]. }
    rewrite withdrawal_reply_app in Hreply by exact Hn1.
    inversion Hw; subst;
      match goal with
      | H : read_balances _ _ _ _ _ = _ |- _ =>
          pose proof (no_withdrawal _ (reads_not_sizing _ _ _ _ _ _ _ H)) as Hreads
      end;
      try rewrite withdrawal_reply_app in Hreply by exact Hreads;
      try (rewrite withdrawal_reply_none in Hreply by exact Hreads);
      try discriminate Hreply.
    cbn in Hreply. injection Hreply as <- <-.
    match goal with
    | H : after_mined _ _ _ _ _ _ _ _ _ _ _ |- _ => inversion H; subst
    end; try contradiction.
    split; [reflexivity |].
    eexists (l1 ++ reads ++ [_]), _. rewrite List.app_nil_r.
    split; [rewrite <- !List.app_assoc; reflexivity |]. split; [reflexivity |].
    apply Forall_app. split; [exact Hn1 |].
    apply Forall_app. split; [exact Hreads | repeat constructor].
Qed.

(** X13: an estimate of zero stops the run.  When the pool answers the
    estimate with 0, the run exits with status 1 and the message of
    [estimate_usdc]; the chain is as the setup left it and no withdrawal is
    sent. *)
Theorem zero_estimate_stops (argv : Argv) (environ dotenv : gmap string string)
    (c c' : Chain) (l : list event) (o : outcome unit) :
  main int_of_str w3 argv environ dotenv c = (c', l, o) ->
  estimate_reply l = Some (Ok 0%N) ->
  o = SysExit zero_estimate_msg
  /\ Forall (fun e => is_withdrawal e = false) l
  /\ exists before pool burn idx,
       l = before ++ [CalcWithdrawOneCoin pool burn idx (Ok 0%N)].
Proof.
  intros Hrun Hreply.
  apply main_ends in Hrun as [(o1 & Hs & Hsame) | (ctx & c1 & l1 & l2 & Hs & Hw & ->)].
  - apply setup_ends_not_late in Hs. rewrite estimate_reply_none in Hreply; [discriminate |].
    eapply Forall_impl; [exact Hs | apply not_late_not_sizing].
  - apply setup_ends_not_late in Hs.
    assert (Hs1 : Forall (fun e => is_sizing e = false) l1).
    { eapply Forall_impl; [exact Hs | apply not_late_not_sizing]. }
    rewrite estimate_reply_app in Hreply by exact Hs1.
    inversion Hw; subst;
      match goal with
      | H : read_balances _ _ _ _ _ = _ |- _ =>
          pose proof (reads_not_sizing _ _ _ _ _ _ _ H) as Hreads
      end;
      try rewrite estimate_reply_app in Hreply by exact Hreads;
      try (rewrite estimate_reply_none in Hreply by exact Hreads);
      try discriminate Hreply;
      cbn in Hreply; simplify_eq; try congruence.
    split; [reflexivity |]. split.
    + apply Forall_app. split; [apply no_withdrawal; exact Hs1 |].
      apply Forall_app. split; [apply no_withdrawal; exact Hreads | repeat constructor].
    + eexists (l1 ++ reads), _, _, _. rewrite <- List.app_assoc. reflexivity.
Qed.

(** X14: a live run that completes has sent one withdrawal, mined with
    status 1, then read the balances again and reported.  The report
    carries the snapshot before, the snapshot after, and their differences:
    the pool shares burned are [before - after], the USDC received is
    [after - before]; the snapshot after is what the chain the run leaves
    gives when it is read again. *)
Theorem live_run_reports_deltas (argv : Argv) (environ dotenv : gmap string string)
    (c c' : Chain) (l : list event) :
  opt_dry_run argv = false ->
  main int_of_str w3 argv environ dotenv c = (c', l, Ret tt) ->
  exists (rpc pool holder usdc tx_hash : string) (before after : Balances)
         (burn idx expected : Z) (earlier reads : list event),
    to_checksum_address w3 config.USDC_ADDRESS = Some usdc
    /\ l = earlier
           ++ [RemoveLiquidityOneCoin pool burn idx (min_received_of expected) holder holder
                 (Ok (tx_hash, 1))]
           ++ reads
           ++ [Print (Result rpc pool holder before after burn
                        (lp_balance before - lp_balance after)
                        (usdc_balance after - usdc_balance before)
                        expected (min_received_of expected) tx_hash)]
    /\ Forall (fun e => is_withdrawal e = false) earlier
    /\ read_balances w3 pool usdc holder c' = (c', reads, Ret after).
Proof.
  intros Hflag Hrun.
  apply main_ends in Hrun as [(o1 & Hs & Hsame) | (ctx & c1 & l1 & l2 & Hs & Hw & ->)].
  - destruct o1; cbn in Hsame; contradiction.
  - pose proof (setup_ends_not_late _ _ _ _ _ _ _ Hs) as Hl1.
    assert (Hn1 : Forall (fun e => is_withdrawal e = false) l1).
    { eapply Forall_impl; [exact Hl1 | apply not_late_not_withdrawal]. }
    assert (Hdone : setup_done int_of_str w3 argv environ dotenv ctx).
    { completed Hs.
      match goal with H : gates_passed _ _ _ _ _ _ _ _ _ _ |- _ =>
                        destruct H as [G1 G2 G3 G4 G5 G6] end.
      repeat split; assumption. }
    destruct Hdone as (Hargs & _ & Husdc).
    apply parse_args_ret in Hargs as (Hns & _ & _).
    apply parser_parse_args_dry_run in Hns. rewrite Hflag in Hns.
    inversion Hw; subst; try congruence.
    match goal with
    | H : after_mined _ _ _ _ _ _ _ _ _ _ _ |- _ => inversion H; subst
    end.
    match goal with
    | H : read_balances _ _ _ _ c1 = (c1, ?r, Ret _) |- _ =>
        pose proof (no_withdrawal _ (reads_not_sizing _ _ _ _ _ _ _ H)) as Hreads
    end.
    exists (rpc_url (ctx_args ctx)), (ctx_pool_address ctx), (ctx_impersonated ctx),
      (ctx_usdc_address ctx), tx_hash, b, after, burn, (ctx_usdc_index ctx),
      (Z.of_N expected),
      (l1 ++ reads ++ [CalcWithdrawOneCoin (ctx_pool_address ctx) burn (ctx_usdc_index ctx)
                         (Ok expected)]),
      reads0.
    split; [exact Husdc |]. split.
    { rewrite <- (List.app_assoc l1), <- (List.app_assoc reads). reflexivity. }
    split; [| assumption].
    apply Forall_app. split; [exact Hn1 |].
    apply Forall_app. split; [exact Hreads | repeat constructor].
Qed.



Lemma calc_burn_amount_exit_msg (lp bps : Z) (msg : string) :
  calc_burn_amount lp bps = SysExit msg ->
  msg = "Computed burn amount is zero; LP position may be too small for the requested --burn-bps.".
Proof.
  unfold calc_burn_amount. cbv zeta. destruct (_ =? 0); [| discriminate].
  intros E. injection E as <-. reflexivity.
Qed.

(** X15: a position too small for the requested basis points stops the run
    before the pool is asked for an estimate.  When the first balance read
    gives [n > 0] pool shares and [n * burn_bps < 10000], the run ends with
    status 1, by the exit of [calc_burn_amount] (or earlier, by a read of
    the snapshot that raises), and its transcript holds no estimate, no
    withdrawal and no report of a plan. *)
Theorem small_position_stops (argv : Argv) (environ dotenv : gmap string string)
    (c c' : Chain) (l : list event) (o : outcome unit) (args : Namespace)
    (token holder : string) (n : N) :
  main int_of_str w3 argv environ dotenv c = (c', l, o) ->
  parse_args int_of_str argv (load_dotenv environ dotenv) = Ret args ->
  first_balance_read l = Some (token, holder, Ok n) ->
  n <> 0%N ->
  Z.of_N n * burn_bps args < 10000 ->
  Forall (fun e => is_sizing e = false) l
  /\ (o = SysExit "Computed burn amount is zero; LP position may be too small for the requested --burn-bps."
      \/ exists e, o = Raise e).
Proof.
  intros Hrun Hargs Hfirst Hn Hsmall.
  apply main_ends in Hrun as [(o1 & Hs & Hsame) | (ctx & c1 & l1 & l2 & Hs & Hw & ->)].
  - apply setup_ends_not_late in Hs.
    rewrite first_balance_read_none in Hfirst by exact Hs. discriminate Hfirst.
  - pose proof (setup_ends_not_late _ _ _ _ _ _ _ Hs) as Hl1.
    assert (Hs1 : Forall (fun e => is_sizing e = false) l1).
    { eapply Forall_impl; [exact Hl1 | apply not_late_not_sizing]. }
    rewrite first_balance_read_app in Hfirst by exact Hl1.
    assert (Hctx : ctx_args ctx = args).
    { completed Hs.
      match goal with H : gates_passed _ _ _ _ _ _ _ _ _ _ |- _ =>
                        destruct H as [G1 _ _ _ _ _] end.
      rewrite Hargs in G1. injection G1 as <-. reflexivity. }
    apply parse_args_ret in Hargs as (_ & _ & Hrange).
    assert (Hexits : forall b : Balances,
               balanceOf w3 c1 (ctx_pool_address ctx) (ctx_impersonated ctx)
               = Ok (Z.to_N (lp_balance b)) ->
               0 <= lp_balance b ->
               first_balance_read
                 [BalanceOf (ctx_pool_address ctx) (ctx_impersonated ctx)
                    (balanceOf w3 c1 (ctx_pool_address ctx) (ctx_impersonated ctx))]
               = Some (token, holder, Ok n) ->
               lp_balance b <> 0
               /\ returns (calc_burn_amount (lp_balance b) (burn_bps (ctx_args ctx))) = false).
    { intros b Hb Hpos E. rewrite Hb in E. cbn in E. injection E as _ _ <-.
      rewrite Hctx. split; [lia |].
      destruct (calc_burn_amount_cases (lp_balance b) (burn_bps args)) as [[_ Hr] | [Hq _]];
        [exact Hr |].
      exfalso. apply Hq. apply Z.div_small. split; [nia | ].
      replace (lp_balance b) with (Z.of_N (Z.to_N (lp_balance b))) by lia. exact Hsmall. }
    assert (Hhead : forall (reads : list event) (ob : outcome Balances) (more : list event),
               read_balances w3 (ctx_pool_address ctx) (ctx_usdc_address ctx)
                 (ctx_impersonated ctx) c1 = (c1, reads, ob) ->
               first_balance_read (reads ++ more) = Some (token, holder, Ok n) ->
               first_balance_read
                 [BalanceOf (ctx_pool_address ctx) (ctx_impersonated ctx)
                    (balanceOf w3 c1 (ctx_pool_address ctx) (ctx_impersonated ctx))]
               = Some (token, holder, Ok n)
               /\ (forall b, ob = Ret b ->
                             balanceOf w3 c1 (ctx_pool_address ctx) (ctx_impersonated ctx)
                             = Ok (Z.to_N (lp_balance b))
                             /\ 0 <= lp_balance b)).
    { intros reads ob more Hread E.
      destruct (read_balances_spec w3 (ctx_pool_address ctx) (ctx_usdc_address ctx)
                  (ctx_impersonated ctx) c1) as (tl & o0 & Hspec & _ & _ & Hb).
      rewrite Hread in Hspec. injection Hspec as -> ->. split; [exact E | exact Hb]. }
    inversion Hw; subst;
      match goal with
      | H : read_balances _ _ _ _ _ = (_, ?r, _) |- _ =>
          pose proof (reads_not_sizing _ _ _ _ _ _ _ H) as Hreads;
          first [ destruct (Hhead _ _ _ H Hfirst) as [Hone Hb]
                | (rewrite <- (List.app_nil_r r) in Hfirst;
                   destruct (Hhead _ _ _ H Hfirst) as [Hone Hb]) ]
      end;
      try (destruct (Hb _ eq_refl) as [Hbal Hpos];
           destruct (Hexits _ Hbal Hpos Hone) as [Hnz Hret]);
      try contradiction;
      try (match goal with
           | H : calc_burn_amount _ _ = Ret _ |- _ => rewrite H in Hret; discriminate Hret
           end).
    + split; [apply not_sizing_app; assumption | right; eauto].
    + split; [apply not_sizing_app; assumption | left].
      match goal with
      | H : calc_burn_amount _ _ = SysExit _ |- _ =>
          apply calc_burn_amount_exit_msg in H; subst; reflexivity
      end.
Qed.


(** The arguments of a run, with the dry-run flag taken off. *)
Lemma parse_args_live (argv : Argv) (env : gmap string string) (args : Namespace) :
  parse_args int_of_str argv env = Ret args ->
  parse_args int_of_str (live argv) env
  = Ret {| rpc_url := rpc_url args;
           impersonated_address := impersonated_address args;
           burn_bps := burn_bps args;
           dry_run := false |}.
Proof.
  unfold parse_args, parser_parse_args, live. cbn [opt_rpc_url opt_impersonated_address
                                                   opt_burn_bps opt_dry_run].
  destruct (default_burn_bps int_of_str env) as [d | | |]; try discriminate.
  destruct (match opt_burn_bps argv with Some t => int_of_str t | None => Some d end)
    as [bps |]; [| discriminate].
  cbn [impersonated_address burn_bps].
  destruct (negb (truthy _)); [discriminate |].
  destruct (negb _); [discriminate |].
  intros E. injection E as <-. reflexivity.
Qed.

(** A [setup] whose steps all succeed, run from its premises. *)
Lemma setup_complete_run (argv : Argv) (environ dotenv : gmap string string)
    (c c1 c2 : Chain) (args : Namespace) (impersonated pool usdc funder : string)
    (error : option string) (probes : list event) (usdc_index : Z) :
  gates_passed int_of_str w3 argv environ dotenv args impersonated pool usdc funder ->
  anvil_impersonateAccount w3 c impersonated = (c1, error) ->
  truthy error = false ->
  send_transaction w3 c1 funder impersonated fund_wei = Ok c2 ->
  get_usdc_index w3 pool usdc c2 = (c2, probes, Ret usdc_index) ->
  setup int_of_str w3 argv environ dotenv c
  = (c2,
     [IsConnected (rpc_url args) true; Accounts (accounts w3); Accounts (accounts w3);
      ImpersonateAccount impersonated error;
      SendTransaction funder impersonated fund_wei None;
      Print (ImpersonationSuccessful fund_wei funder impersonated)] ++ probes,
     Ret {| ctx_args := args;
            ctx_impersonated := impersonated;
            ctx_pool_address := pool;
            ctx_usdc_address := usdc;
            ctx_usdc_index := usdc_index |}).
Proof.
  intros [G1 G2 G3 G4 G5 [others G6]] Himp Herr Hsend Hidx.
  unfold setup. cbv zeta. unfold bind at 1. unfold lift at 1. rewrite G1.
  unfold get_web3, bind, emit, sys_exit, lift, ret. rewrite G2. cbn [negb].
  unfold to_checksum, ret. rewrite G3, G4, G5.
  unfold eth_accounts, bind, emit, ret. rewrite G6.
  unfold unwrap, ret, impersonate_and_fund, bind, emit, sys_exit, lift.
  rewrite Himp, Herr, Hsend, Hidx. cbn. rewrite List.app_nil_r. reflexivity.
Qed.

(** [setup] does not look at the dry-run flag. *)
Lemma setup_live (argv : Argv) (environ dotenv : gmap string string) (c c1 : Chain)
    (l1 : list event) (ctx : context) :
  setup int_of_str w3 argv environ dotenv c = (c1, l1, Ret ctx) ->
  setup int_of_str w3 (live argv) environ dotenv c
  = (c1, l1,
     Ret {| ctx_args := {| rpc_url := rpc_url (ctx_args ctx);
                           impersonated_address := impersonated_address (ctx_args ctx);
                           burn_bps := burn_bps (ctx_args ctx);
                           dry_run := false |};
            ctx_impersonated := ctx_impersonated ctx;
            ctx_pool_address := ctx_pool_address ctx;
            ctx_usdc_address := ctx_usdc_address ctx;
            ctx_usdc_index := ctx_usdc_index ctx |}).
Proof.
  intros Hsetup. apply setup_ends_intro in Hsetup. completed Hsetup.
  match goal with H : gates_passed _ _ _ _ _ _ _ _ _ _ |- _ =>
                    destruct H as [G1 G2 G3 G4 G5 G6] end.
  cbn [ctx_args ctx_impersonated ctx_pool_address ctx_usdc_address ctx_usdc_index].
  change (IsConnected (rpc_url args) true)
    with (IsConnected (rpc_url {| rpc_url := rpc_url args;
                                  impersonated_address := impersonated_address args;
                                  burn_bps := burn_bps args;
                                  dry_run := false |}) true).
  eapply setup_complete_run; try eassumption.
  constructor; try assumption. apply parse_args_live. exact G1.
Qed.

(** The withdrawal a live run sends once the plan is made. *)
Lemma live_withdrawal_transcript (ctx : context) (c : Chain) (reads : list event)
    (b : Balances) (burn : Z) (expected : N) :
  dry_run (ctx_args ctx) = false ->
  read_balances w3 (ctx_pool_address ctx) (ctx_usdc_address ctx) (ctx_impersonated ctx) c
  = (c, reads, Ret b) ->
  lp_balance b <> 0 ->
  calc_burn_amount (lp_balance b) (burn_bps (ctx_args ctx)) = Ret burn ->
  calc_withdraw_one_coin w3 c (ctx_pool_address ctx) burn (ctx_usdc_index ctx)
  = Ok expected ->
  expected <> 0%N ->
  exists (r : reply (string * Z)) (rest : list event),
    (withdrawal w3 ctx c).1.2
    = reads
        ++ CalcWithdrawOneCoin (ctx_pool_address ctx) burn (ctx_usdc_index ctx) (Ok expected)
        :: RemoveLiquidityOneCoin (ctx_pool_address ctx) burn (ctx_usdc_index ctx)
             (min_received_of (Z.of_N expected))
             (ctx_impersonated ctx) (ctx_impersonated ctx) r
        :: rest.
Proof.
  intros Hdry Hread Hlp Hburn Hest Hexp.
  destruct (withdrawal w3 ctx c) as [[c' l] o] eqn:Hw. cbn.
  apply withdrawal_ends_intro in Hw.
  inversion Hw; subst;
    repeat match goal with
    | H1 : ?x = ?a, H2 : ?x = ?b |- _ =>
        rewrite H1 in H2; first [discriminate H2 | injection H2 as ? ?; subst
                                | injection H2 as ?; subst]
    end;
    try congruence.
  - eexists _, _. reflexivity.
  - eexists _, _. cbn. reflexivity.
Qed.


(** X16: a dry run predicts the live run.  A dry run that completes reports
    a plan; the same invocation without the flag, from the same chain, has
    the same transcript up to that report and then sends exactly the
    withdrawal reported: same pool, burn, index and floor, by and to the
    same holder. *)
Theorem dry_run_predicts_withdrawal (argv : Argv) (environ dotenv : gmap string string)
    (c c' : Chain) (l : list event) :
  opt_dry_run argv = true ->
  main int_of_str w3 argv environ dotenv c = (c', l, Ret tt) ->
  exists (earlier : list event) (rpc pool holder : string) (b : Balances)
         (burn idx expected : Z),
    l = earlier ++ [Print (DryRun rpc pool holder b burn idx expected
                             (min_received_of expected))]
    /\ exists (r : reply (string * Z)) (rest : list event),
         (main int_of_str w3 (live argv) environ dotenv c).1.2
         = earlier
             ++ RemoveLiquidityOneCoin pool burn idx (min_received_of expected)
                  holder holder r
             :: rest.
Proof.
  intros Hflag. rewrite !main_split. unfold bind.
  pose proof (spec_setup int_of_str w3 argv environ dotenv c) as [_ Hdone].
  destruct (setup int_of_str w3 argv environ dotenv c) as [[c1 l1] o1] eqn:Hsetup.
  cbn in Hdone. destruct o1 as [ctx | | |]; try discriminate.
  rewrite (setup_live _ _ _ _ _ _ _ Hsetup).
  destruct (withdrawal w3 ctx c1) as [[c2 l2] o2] eqn:Hw.
  intros E. injection E as -> <- ->.
  destruct Hdone as (Hargs & _).
  apply parse_args_ret in Hargs as (Hns & _ & _).
  apply parser_parse_args_dry_run in Hns. rewrite Hflag in Hns.
  apply withdrawal_ends_intro in Hw.
  inversion Hw; subst; try congruence.
  set (ctx' := {| ctx_args := {| rpc_url := rpc_url (ctx_args ctx);
                                 impersonated_address := impersonated_address (ctx_args ctx);
                                 burn_bps := burn_bps (ctx_args ctx);
                                 dry_run := false |};
                  ctx_impersonated := ctx_impersonated ctx;
                  ctx_pool_address := ctx_pool_address ctx;
                  ctx_usdc_address := ctx_usdc_address ctx;
                  ctx_usdc_index := ctx_usdc_index ctx |}).
  destruct (live_withdrawal_transcript ctx' c' reads b burn expected)
    as (r & rest & Hlive); try assumption; try reflexivity.
  destruct (withdrawal w3 ctx' c') as [[c3 l3] o3]. cbn in Hlive |- *. subst l3.
  exists (l1 ++ reads ++ [CalcWithdrawOneCoin (ctx_pool_address ctx) burn
                            (ctx_usdc_index ctx) (Ok expected)]),
    (rpc_url (ctx_args ctx)), (ctx_pool_address ctx), (ctx_impersonated ctx), b, burn,
    (ctx_usdc_index ctx), (Z.of_N expected).
  split.
  - rewrite <- (List.app_assoc l1), <- (List.app_assoc reads). reflexivity.
  - exists r, rest.
    rewrite <- (List.app_assoc l1), <- (List.app_assoc reads). reflexivity.
Qed.

End Order.

(** ** The further properties on concrete runs *)

Lemma empty_address_is_missing_witness :
  returns (parse_args toy.int_of_str scenario.empty_address scenario.with_address) = false.
Proof.
  apply (empty_address_is_missing toy.int_of_str scenario.empty_address
           scenario.with_address).
  left. reflexivity.
Defined.

Lemma validation_before_mutation_witness :
  (main toy.int_of_str scenario.offline (toy.argv false) ∅ ∅ toy.funded).1.1 = toy.funded
  /\ returns (main toy.int_of_str scenario.offline (toy.argv false) ∅ ∅ toy.funded).2 = false
  /\ exit_status (main toy.int_of_str scenario.offline (toy.argv false) ∅ ∅ toy.funded).2 = 1
  /\ Forall (fun e => is_gate e = true)
       (main toy.int_of_str scenario.offline (toy.argv false) ∅ ∅ toy.funded).1.2
  /\ (length (main toy.int_of_str scenario.offline (toy.argv false) ∅ ∅ toy.funded).1.2
      <= 2)%nat.
Proof.
  apply (validation_before_mutation toy.int_of_str scenario.offline (toy.argv false) ∅ ∅
           toy.funded _ _ _
           {| rpc_url := config.DEFAULT_RPC_URL;
              impersonated_address := Some toy.holder;
              burn_bps := 100;
              dry_run := false |}).
  - destruct (main toy.int_of_str scenario.offline (toy.argv false) ∅ ∅ toy.funded)
      as [[? ?] ?]. reflexivity.
  - vm_compute. reflexivity.
  - left. reflexivity.
Defined.

Lemma usage_status_means_untouched_witness :
  (exit_status (main toy.int_of_str toy.curve toy.bare ∅ ∅ toy.funded).2 = 2 ->
   (main toy.int_of_str toy.curve toy.bare ∅ ∅ toy.funded).1.1 = toy.funded
   /\ (main toy.int_of_str toy.curve toy.bare ∅ ∅ toy.funded).1.2 = []
   /\ exists msg, (main toy.int_of_str toy.curve toy.bare ∅ ∅ toy.funded).2 = ParserError msg
                  /\ parse_args toy.int_of_str toy.bare (load_dotenv ∅ ∅) = ParserError msg)
  /\ (returns (main toy.int_of_str toy.curve toy.bare ∅ ∅ toy.funded).2 = false ->
      (main toy.int_of_str toy.curve toy.bare ∅ ∅ toy.funded).1.2 <> [] ->
      exit_status (main toy.int_of_str toy.curve toy.bare ∅ ∅ toy.funded).2 = 1).
Proof.
  apply (usage_status_means_untouched toy.int_of_str toy.curve toy.bare ∅ ∅ toy.funded).
  destruct (main toy.int_of_str toy.curve toy.bare ∅ ∅ toy.funded) as [[? ?] ?].
  reflexivity.
Defined.

Lemma impersonation_error_stops_witness :
  returns (main toy.int_of_str scenario.refusing (toy.argv false) ∅ ∅ toy.funded).2 = false
  /\ exit_status (main toy.int_of_str scenario.refusing (toy.argv false) ∅ ∅ toy.funded).2 = 1
  /\ funding_transfer
       (main toy.int_of_str scenario.refusing (toy.argv false) ∅ ∅ toy.funded).1.2 = None
  /\ exists before,
       (main toy.int_of_str scenario.refusing (toy.argv false) ∅ ∅ toy.funded).1.2
       = before ++ [ImpersonateAccount toy.holder (Some "account locked")]
       /\ Forall (fun e => is_gate e = true) before.
Proof.
  apply (impersonation_error_stops toy.int_of_str scenario.refusing (toy.argv false) ∅ ∅
           toy.funded
           (main toy.int_of_str scenario.refusing (toy.argv false) ∅ ∅ toy.funded).1.1).
  - destruct (main toy.int_of_str scenario.refusing (toy.argv false) ∅ ∅ toy.funded)
      as [[? ?] ?]. reflexivity.
  - vm_compute. reflexivity.
  - reflexivity.
Defined.

Lemma withdrawal_needs_impersonation_witness :
  exists (args : Namespace) (holder pool funder : string) (error : option string),
    parse_args toy.int_of_str (toy.argv false) (load_dotenv ∅ ∅) = Ret args
    /\ to_checksum_address toy.curve (default EmptyString (impersonated_address args))
       = Some holder
    /\ to_checksum_address toy.curve config.POOL_ADDRESS = Some pool
    /\ head (accounts toy.curve) = Some funder
    /\ impersonation_reply
         (main toy.int_of_str toy.curve (toy.argv false) ∅ ∅ toy.funded).1.2
       = Some (holder, error)
    /\ truthy error = false
    /\ funding_transfer (main toy.int_of_str toy.curve (toy.argv false) ∅ ∅ toy.funded).1.2
       = Some (funder, holder, 100000000000000000, None)
    /\ Forall (withdrawal_from pool holder)
         (main toy.int_of_str toy.curve (toy.argv false) ∅ ∅ toy.funded).1.2.
Proof.
  apply (withdrawal_needs_impersonation toy.int_of_str toy.curve (toy.argv false) ∅ ∅
           toy.funded
           (main toy.int_of_str toy.curve (toy.argv false) ∅ ∅ toy.funded).1.1 _
           (main toy.int_of_str toy.curve (toy.argv false) ∅ ∅ toy.funded).2).
  - destruct (main toy.int_of_str toy.curve (toy.argv false) ∅ ∅ toy.funded)
      as [[? ?] ?]. reflexivity.
  - vm_compute. reflexivity.
Defined.

Lemma failed_transaction_is_final_witness :
  (main toy.int_of_str scenario.reverting (toy.argv false) ∅ ∅ toy.funded).2
  = SysExit (transaction_failed_msg 0
               "0x5c504ed432cb51138bcf09aa5e8a410dd4a1e204ef84bfed1be16dfba1b22060")
  /\ exists before last_entry,
       (main toy.int_of_str scenario.reverting (toy.argv false) ∅ ∅ toy.funded).1.2
       = before ++ [last_entry]
       /\ is_withdrawal last_entry = true
       /\ Forall (fun e => is_withdrawal e = false) before.
Proof.
  apply (failed_transaction_is_final toy.int_of_str scenario.reverting (toy.argv false) ∅ ∅
           toy.funded
           (main toy.int_of_str scenario.reverting (toy.argv false) ∅ ∅ toy.funded).1.1).
  - destruct (main toy.int_of_str scenario.reverting (toy.argv false) ∅ ∅ toy.funded)
      as [[? ?] ?]. reflexivity.
  - vm_compute. reflexivity.
  - lia.
Defined.

Lemma live_run_reports_deltas_witness :
  exists (rpc pool holder usdc tx_hash : string) (before after : Balances)
         (burn idx expected : Z) (earlier reads : list event),
    to_checksum_address toy.curve config.USDC_ADDRESS = Some usdc
    /\ (main toy.int_of_str toy.curve (toy.argv false) ∅ ∅ toy.funded).1.2
       = earlier
           ++ [RemoveLiquidityOneCoin pool burn idx (min_received_of expected) holder holder
                 (Ok (tx_hash, 1))]
           ++ reads
           ++ [Print (Result rpc pool holder before after burn
                        (lp_balance before - lp_balance after)
                        (usdc_balance after - usdc_balance before)
                        expected (min_received_of expected) tx_hash)]
    /\ Forall (fun e => is_withdrawal e = false) earlier
    /\ read_balances toy.curve pool usdc holder
         (main toy.int_of_str toy.curve (toy.argv false) ∅ ∅ toy.funded).1.1
       = ((main toy.int_of_str toy.curve (toy.argv false) ∅ ∅ toy.funded).1.1, reads,
          Ret after).
Proof.
  apply (live_run_reports_deltas toy.int_of_str toy.curve (toy.argv false) ∅ ∅ toy.funded).
  - reflexivity.
  - vm_compute. reflexivity.
Defined.

Lemma zero_estimate_stops_witness :
  (main toy.int_of_str scenario.imbalanced (toy.argv false) ∅ ∅ toy.funded).2
  = SysExit zero_estimate_msg
  /\ Forall (fun e => is_withdrawal e = false)
       (main toy.int_of_str scenario.imbalanced (toy.argv false) ∅ ∅ toy.funded).1.2
  /\ exists before pool burn idx,
       (main toy.int_of_str scenario.imbalanced (toy.argv false) ∅ ∅ toy.funded).1.2
       = before ++ [CalcWithdrawOneCoin pool burn idx (Ok 0%N)].
Proof.
  apply (zero_estimate_stops toy.int_of_str scenario.imbalanced (toy.argv false) ∅ ∅
           toy.funded
           (main toy.int_of_str scenario.imbalanced (toy.argv false) ∅ ∅ toy.funded).1.1).
  - destruct (main toy.int_of_str scenario.imbalanced (toy.argv false) ∅ ∅ toy.funded)
      as [[? ?] ?]. reflexivity.
  - vm_compute. reflexivity.
Defined.

Lemma small_position_stops_witness :
  Forall (fun e => is_sizing e = false)
    (main toy.int_of_str toy.curve (toy.argv false) ∅ ∅ scenario.crumbs).1.2
  /\ ((main toy.int_of_str toy.curve (toy.argv false) ∅ ∅ scenario.crumbs).2
      = SysExit "Computed burn amount is zero; LP position may be too small for the requested --burn-bps."
      \/ exists e, (main toy.int_of_str toy.curve (toy.argv false) ∅ ∅ scenario.crumbs).2
                   = Raise e).
Proof.
  apply (small_position_stops toy.int_of_str toy.curve (toy.argv false) ∅ ∅ scenario.crumbs
           (main toy.int_of_str toy.curve (toy.argv false) ∅ ∅ scenario.crumbs).1.1 _ _
           {| rpc_url := config.DEFAULT_RPC_URL;
              impersonated_address := Some toy.holder;
              burn_bps := 100;
              dry_run := false |}
           config.POOL_ADDRESS toy.holder 50%N).
  - destruct (main toy.int_of_str toy.curve (toy.argv false) ∅ ∅ scenario.crumbs)
      as [[? ?] ?]. reflexivity.
  - vm_compute. reflexivity.
  - vm_compute. reflexivity.
  - discriminate.
  - reflexivity.
Defined.

Lemma dry_run_predicts_withdrawal_witness :
  exists (earlier : list event) (rpc pool holder : string) (b : Balances)
         (burn idx expected : Z),
    (main toy.int_of_str toy.curve (toy.argv true) ∅ ∅ toy.funded).1.2
    = earlier ++ [Print (DryRun rpc pool holder b burn idx expected
                           (min_received_of expected))]
    /\ exists (r : reply (string * Z)) (rest : list event),
         (main toy.int_of_str toy.curve (live (toy.argv true)) ∅ ∅ toy.funded).1.2
         = earlier
             ++ RemoveLiquidityOneCoin pool burn idx (min_received_of expected)
                  holder holder r
             :: rest.
Proof.
  apply (dry_run_predicts_withdrawal toy.int_of_str toy.curve (toy.argv true) ∅ ∅ toy.funded
           (main toy.int_of_str toy.curve (toy.argv true) ∅ ∅ toy.funded).1.1).
  - reflexivity.
  - vm_compute. reflexivity.
Defined.
